(** * ezdxf: POINT entity, modern DXF factory and mesh editing

    A shallow embedding of

    - [src/ezdxf/entities/point.py]  (the POINT entity: loading, export,
      [transform] and [translate]),
    - [ezdxf/modern/__init__.py]     (the factory for DXF R2000 and later),
    - the mesh editing session exercised by
      [tests/test_modern_structures/test_mesh.py],

    together with the properties the specification states about them.

    Python objects live in a store indexed by object identity, attribute
    namespaces and class-level tables are finite maps keyed by strings, and
    code that raises is a computation in a state-and-exception monad whose
    state survives the exception. *)

From Stdlib Require Import ZArith String List Lia.
From stdpp Require Import base option list gmap strings fin_maps.

Local Open Scope string_scope.
Local Open Scope list_scope.

(** ** Exceptions and stateful computations *)

(** The exception classes met in the modelled code. *)
Inductive DXFError : Type :=
  | DXFValueError          (* ezdxf.DXFValueError, the spec's InvalidValue *)
  | DXFTypeError           (* an attribute holds a value of the wrong kind *)
  | DXFStructureError      (* the spec's InvalidAttributeShape *)
  | DXFAttributeError      (* no such object or attribute *)
  | DXFIndexError.         (* an index that refers to nothing *)

Inductive Result (A : Type) : Type :=
  | Ok (a : A)
  | Raise (e : DXFError).
Arguments Ok {A} a.
Arguments Raise {A} e.

(** A method call on mutable state [S]: it yields a value or raises, and in
    both cases leaves a state behind. *)
Definition Exec (S A : Type) : Type := S → Result A * S.

Definition exec_ret {S A} (a : A) : Exec S A := λ s, (Ok a, s).

Definition exec_bind {S A B} (c : Exec S A) (k : A → Exec S B) : Exec S B :=
  λ s, match c s with
       | (Ok a, s') => k a s'
       | (Raise e, s') => (Raise e, s')
       end.

Definition raise {S A} (e : DXFError) : Exec S A := λ s, (Raise e, s).
Definition get_state {S} : Exec S S := λ s, (Ok s, s).
Definition modify_state {S} (f : S → S) : Exec S unit := λ s, (Ok tt, f s).

Declare Scope exec_scope.
Delimit Scope exec_scope with exec.
Notation "'do' x <- c ; k" := (exec_bind c (λ x, k))
  (at level 10, x name, c at level 100, k at level 200) : exec_scope.
Notation "c ;; k" := (exec_bind c (λ _, k))
  (at level 100, k at level 200, right associativity) : exec_scope.
Local Open Scope exec_scope.

(** ** Coordinates, vectors and matrices *)

(** Coordinates are Python floats.  No property below depends on rounding, so
    the arithmetic is an interface; [Z] is the instance used for concrete
    runs. *)
Class Scalar (F : Type) : Type := {
  fzero : F;
  fone : F;
  fadd : F → F → F;
  fmul : F → F → F;
}.

Class ScalarComm (F : Type) `{Scalar F} : Prop :=
  fadd_comm : ∀ a b : F, fadd a b = fadd b a.

#[export] Instance Z_scalar : Scalar Z :=
  {| fzero := 0%Z; fone := 1%Z; fadd := Z.add; fmul := Z.mul |}.

Section Geometry.
Context {F : Type} {scalar : Scalar F}.

(** ezdxf.math.Vector: an immutable 3D vector. *)
Record Vector : Type := mkVector { vx : F; vy : F; vz : F }.

(** [Vector.__add__]: component-wise sum, the receiver on the left. *)
Definition Vector_add (a b : Vector) : Vector :=
  mkVector (fadd (vx a) (vx b)) (fadd (vy a) (vy b)) (fadd (vz a) (vz b)).

(** ezdxf.math.Matrix44: sixteen floats in row-major order; row 3 holds the
    translation. *)
Record Matrix44 : Type := mkMatrix44 {
  m00 : F; m01 : F; m02 : F; m03 : F;
  m10 : F; m11 : F; m12 : F; m13 : F;
  m20 : F; m21 : F; m22 : F; m23 : F;
  m30 : F; m31 : F; m32 : F; m33 : F;
}.

(** Modelled from the spec: [Matrix44.transform] is not under src/.  The
    spec calls it the full affine transform: the linear part applied to
    the vector, plus the translation. *)
Definition Matrix44_transform (m : Matrix44) (v : Vector) : Vector :=
  let x := vx v in let y := vy v in let z := vz v in
  mkVector
    (fadd (fadd (fadd (fmul x (m00 m)) (fmul y (m10 m))) (fmul z (m20 m))) (m30 m))
    (fadd (fadd (fadd (fmul x (m01 m)) (fmul y (m11 m))) (fmul z (m21 m))) (m31 m))
    (fadd (fadd (fadd (fmul x (m02 m)) (fmul y (m12 m))) (fmul z (m22 m))) (m32 m)).
End Geometry.
Arguments Vector F : clear implicits.
Arguments Matrix44 F : clear implicits.

(** ** Tags, attribute descriptors and namespaces *)

Section Tags.
Context {F : Type}.

(** The value of a tag or of an attribute: text, integer, float, or a
    point with two or three components. *)
Inductive DXFValue : Type :=
  | VStr (s : string)
  | VInt (n : Z)
  | VFloat (x : F)
  | VVec2 (x y : F)
  | VVec (v : Vector F).

(** A tag is a (group code, value) pair. *)
Definition DXFTag : Type := Z * DXFValue.
Definition tag_code (t : DXFTag) : Z := fst t.
Definition tag_value (t : DXFTag) : DXFValue := snd t.

(** [XType]: the shape of an attribute value. *)
Inductive XType : Type := XAny | XPoint3d.

(** [DXFAttr(code, xtype=..., default=..., optional=...)]. *)
Record DXFAttr : Type := mkDXFAttr {
  attr_code : Z;
  attr_xtype : XType;
  attr_default : DXFValue;
  attr_optional : bool;
}.

(** [DefSubclass(name, {attribute name: DXFAttr})]; the dict literal keeps
    its entries in declaration order. *)
Record DefSubclass : Type := mkDefSubclass {
  subclass_name : string;
  subclass_attribs : list (string * DXFAttr);
}.

Fixpoint find_attr (name : string) (attribs : list (string * DXFAttr))
  : option DXFAttr :=
  match attribs with
  | [] => None
  | (n, a) :: rest => if String.eqb n name then Some a else find_attr name rest
  end.
End Tags.
Arguments DXFValue F : clear implicits.
Arguments DXFTag F : clear implicits.
Arguments DXFAttr F : clear implicits.
Arguments DefSubclass F : clear implicits.

(** The attribute namespace [entity.dxf]: attribute name to stored value.  An
    attribute that was never loaded or assigned is absent from the map. *)
Abbreviation DXFNamespace F := (gmap string (DXFValue F)).

(** Object identity: the address of a Python object. *)
Abbreviation ref := nat.

(** An entity object; [dxf] is its attribute namespace. *)
Record DXFEntity (F : Type) : Type := mkEntity { dxf : DXFNamespace F }.
Arguments mkEntity {F} dxf.
Arguments dxf {F} _.

(** The store of entity objects. *)
Abbreviation Heap F := (gmap nat (DXFEntity F)).

(** ** The POINT entity ([ezdxf/entities/point.py]) *)

Section PointModel.
Context {F : Type} {scalar : Scalar F}.

(** [SUBCLASS_MARKER], the group code that opens a named sub-record.
    Modelled from the spec: the constant lives in [ezdxf.lldxf.const], which
    is not under src/; the tag data of the tests show the marker as
    [100 / AcDbEntity]. *)
Definition SUBCLASS_MARKER : Z := 100.

(** [acdb_point = DefSubclass('AcDbPoint', {...})]. *)
Definition acdb_point : DefSubclass F :=
  mkDefSubclass "AcDbPoint"
    [ ("location",  mkDXFAttr 10 XPoint3d (VVec (mkVector fzero fzero fzero)) false);
      ("thickness", mkDXFAttr 39 XAny (VInt 0) true);
      ("extrusion", mkDXFAttr 210 XPoint3d (VVec (mkVector fzero fzero fone)) true);
      ("angle",     mkDXFAttr 50 XAny (VInt 0) true) ].

(** *** Loading: the sub-record processor *)

(** The processor handed to [load_dxf_attribs]: the revision flag and the
    entity's tags grouped into sub-records.  A marker-delimited sub-record
    starts with its marker tag; under the legacy revision there is a single
    unmarked base sub-record holding every tag. *)
Record SubclassProcessor : Type := mkProcessor {
  r12 : bool;
  subclasses : list (list (DXFTag F));
}.

(** A notice of unprocessed tags: the sub-record name and the tags. *)
Definition Notice : Type := string * list (DXFTag F).

(** The first tag with group code [c], and the tags left without it. *)
Fixpoint take_first_code (c : Z) (tags : list (DXFTag F))
  : option (DXFTag F * list (DXFTag F)) :=
  match tags with
  | [] => None
  | t :: rest =>
      if Z.eqb (tag_code t) c then Some (t, rest)
      else match take_first_code c rest with
           | Some (t', rest') => Some (t', t :: rest')
           | None => None
           end
  end.

(** Does the value have the shape the descriptor asks for? *)
Definition shape_ok (x : XType) (v : DXFValue F) : bool :=
  match x, v with
  | XPoint3d, VVec _ => true
  | XPoint3d, _ => false
  | XAny, _ => true
  end.

(** Modelled from the spec: the schema-driven loader of section 4.3 is not
    under src/.  For each descriptor, in declared order, the first tag
    carrying its group code is consumed and stored under the attribute name;
    an absent attribute stays unset (reads yield the default); a point of the
    wrong arity raises.  The tags no descriptor consumed are the residue. *)
Fixpoint load_tags_into_namespace (attribs : list (string * DXFAttr F))
    (ns : DXFNamespace F) (tags : list (DXFTag F))
  : Result (DXFNamespace F * list (DXFTag F)) :=
  match attribs with
  | [] => Ok (ns, tags)
  | (name, a) :: more =>
      match take_first_code (attr_code a) tags with
      | Some (t, rest) =>
          if shape_ok (attr_xtype a) (tag_value t)
          then load_tags_into_namespace more (<[name := tag_value t]> ns) rest
          else Raise DXFStructureError
      | None => load_tags_into_namespace more ns tags
      end
  end.

(** Is [tags] the sub-record opened by the marker [(100, name)]? *)
Definition is_subclass (name : string) (tags : list (DXFTag F)) : bool :=
  match tags with
  | (c, VStr n) :: _ => Z.eqb c SUBCLASS_MARKER && String.eqb n name
  | _ => false
  end.

(** Modelled from the spec (section 4.2): the tags a schema is matched
    against.  Marker-delimited revisions: the sub-record the marker names,
    without the marker.  Legacy revision: the single base sub-record. *)
Definition find_subclass (p : SubclassProcessor) (name : string)
  : option (list (DXFTag F)) :=
  if r12 p then head (subclasses p)
  else tail <$> List.find (is_subclass name) (subclasses p).

(** Modelled from the spec: [processor.load_dxfattribs_into_namespace(dxf,
    subclass)], returning the filled namespace and the unprocessed tags. *)
Definition load_dxfattribs_into_namespace (p : SubclassProcessor)
    (ns : DXFNamespace F) (sc : DefSubclass F)
  : Result (DXFNamespace F * list (DXFTag F)) :=
  match find_subclass p (subclass_name sc) with
  | Some tags => load_tags_into_namespace (subclass_attribs sc) ns tags
  | None => Ok (ns, [])
  end.

(** Modelled from the spec: [processor.log_unprocessed_tags(tags,
    subclass=name)] adds one non-fatal notice to the diagnostics. *)
Definition log_unprocessed_tags (tags : list (DXFTag F)) (subclass : string)
  : Exec (list Notice) unit :=
  modify_state (λ log, log ++ [(subclass, tags)]).

(** *** Export: the tag writer *)

Record TagWriter : Type := mkTagWriter {
  dxfversion : string;
  written : list (DXFTag F);
}.

(** [tagwriter.write_tag2(code, value)]. *)
Definition write_tag2 (code : Z) (value : DXFValue F) : Exec TagWriter unit :=
  modify_state (λ tw, mkTagWriter (dxfversion tw) (written tw ++ [(code, value)])).

(** The tags one attribute contributes on export.  Modelled from the spec
    (section 4.3, export): an attribute is emitted when it is stored in the
    namespace (loaded from the source or assigned since) or when it is
    required; an optional attribute that was never set is suppressed. *)
Definition attrib_tags (ns : DXFNamespace F) (sc : DefSubclass F) (name : string)
  : list (DXFTag F) :=
  match find_attr name (subclass_attribs sc) with
  | None => []
  | Some a =>
      match ns !! name with
      | Some v => [(attr_code a, v)]
      | None => if attr_optional a then [] else [(attr_code a, attr_default a)]
      end
  end.

(** Modelled from the spec: [dxf.export_dxf_attribs(tagwriter, names)]
    writes the attributes in the order of [names]. *)
Fixpoint export_dxf_attribs (ns : DXFNamespace F) (sc : DefSubclass F)
    (names : list string) : Exec TagWriter unit :=
  match names with
  | [] => exec_ret tt
  | name :: more =>
      modify_state (λ tw, mkTagWriter (dxfversion tw)
                            (written tw ++ attrib_tags ns sc name));;
      export_dxf_attribs ns sc more
  end.

(** *** What the POINT entity needs from code that is not under src/ *)

Class Collaborators : Type := {
  (** [ezdxf.lldxf.const.DXF12], the version string of the legacy revision *)
  DXF12 : string;
  (** the arithmetic of [transform_thickness_and_extrusion_without_ocs]:
      from the matrix and the stored thickness and extrusion to their new
      values *)
  thickness_and_extrusion :
    Matrix44 F → option (DXFValue F) → option (DXFValue F)
    → option (DXFValue F) * option (DXFValue F);
  (** [DXFGraphic.load_dxf_attribs]: the namespace filled from the base and
      the graphical schema, with the notices it logs on the way *)
  super_load_dxf_attribs :
    option SubclassProcessor → Exec (list Notice) (DXFNamespace F);
  (** the tags [DXFGraphic.export_entity] writes for an entity and a target
      version *)
  super_export_tags : DXFEntity F → string → list (DXFTag F);
}.
Context {collab : Collaborators}.

(** [Point.load_dxf_attribs] *)
Definition Point_load_dxf_attribs (processor : option SubclassProcessor)
  : Exec (list Notice) (DXFNamespace F) :=
  do dxf <- super_load_dxf_attribs processor;
  match processor with
  | Some p =>
      match load_dxfattribs_into_namespace p dxf acdb_point with
      | Ok (dxf', tags) =>
          (if negb (Nat.eqb (length tags) 0) && negb (r12 p)
           then log_unprocessed_tags tags (subclass_name acdb_point)
           else exec_ret tt);;
          exec_ret dxf'
      | Raise e => raise e
      end
  | None => exec_ret dxf
  end.

(** [DXFGraphic.export_entity], seen from the subclass. *)
Definition super_export_entity (self : DXFEntity F) : Exec TagWriter unit :=
  modify_state (λ tw, mkTagWriter (dxfversion tw)
                        (written tw ++ super_export_tags self (dxfversion tw))).

(** [Point.export_entity]; Python compares the version strings with [>]. *)
Definition Point_export_entity (self : DXFEntity F) : Exec TagWriter unit :=
  super_export_entity self;;
  do tw <- get_state;
  (if String.ltb DXF12 (dxfversion tw)
   then write_tag2 SUBCLASS_MARKER (VStr (subclass_name acdb_point))
   else exec_ret tt);;
  export_dxf_attribs (dxf self) acdb_point
    ["location"; "thickness"; "extrusion"; "angle"].

(** *** Attribute access on stored entities *)

(** Modelled from the spec: reading [entity.dxf.<name>] yields the stored
    value, or the descriptor's default when the attribute is unset. *)
Definition dxf_get (ns : DXFNamespace F) (sc : DefSubclass F) (name : string)
  : option (DXFValue F) :=
  match ns !! name with
  | Some v => Some v
  | None => attr_default <$> find_attr name (subclass_attribs sc)
  end.

Definition getattr (self : ref) (name : string) : Exec (Heap F) (DXFValue F) :=
  λ h, match h !! self with
       | Some e =>
           match dxf_get (dxf e) acdb_point name with
           | Some v => (Ok v, h)
           | None => (Raise DXFAttributeError, h)
           end
       | None => (Raise DXFAttributeError, h)
       end.

(** Assigning [entity.dxf.<name> = value] updates the object in place. *)
Definition setattr (self : ref) (name : string) (v : DXFValue F)
  : Exec (Heap F) unit :=
  λ h, match h !! self with
       | Some e => (Ok tt, <[self := mkEntity (<[name := v]> (dxf e))]> h)
       | None => (Raise DXFAttributeError, h)
       end.

Definition as_vector (v : DXFValue F) : Exec (Heap F) (Vector F) :=
  match v with
  | VVec u => exec_ret u
  | _ => raise DXFTypeError
  end.

Definition set_or_clear (name : string) (v : option (DXFValue F))
    (ns : DXFNamespace F) : DXFNamespace F :=
  match v with
  | Some x => <[name := x]> ns
  | None => delete name ns
  end.

(** Modelled from the spec: the shared helper
    [transform_thickness_and_extrusion_without_ocs(entity, m)] is not under
    src/.  It maps the direction and extent attributes, thickness and
    extrusion, and nothing else. *)
Definition transform_thickness_and_extrusion_without_ocs (entity : ref)
    (m : Matrix44 F) : Exec (Heap F) unit :=
  λ h, match h !! entity with
       | Some e =>
           let '(t, x) := thickness_and_extrusion m (dxf e !! "thickness")
                            (dxf e !! "extrusion") in
           (Ok tt, <[entity := mkEntity (set_or_clear "extrusion" x
                                  (set_or_clear "thickness" t (dxf e)))]> h)
       | None => (Raise DXFAttributeError, h)
       end.

(** [Point.transform] *)
Definition Point_transform (self : ref) (m : Matrix44 F) : Exec (Heap F) ref :=
  do v <- getattr self "location";
  do loc <- as_vector v;
  setattr self "location" (VVec (Matrix44_transform m loc));;
  transform_thickness_and_extrusion_without_ocs self m;;
  (* ignore dxf.angle! *)
  exec_ret self.

(** [Point.translate] *)
Definition Point_translate (self : ref) (dx dy dz : F) : Exec (Heap F) ref :=
  do v <- getattr self "location";
  do loc <- as_vector v;
  setattr self "location" (VVec (Vector_add (mkVector dx dy dz) loc));;
  exec_ret self.

End PointModel.
Arguments SubclassProcessor F : clear implicits.
Arguments Notice F : clear implicits.
Arguments TagWriter F : clear implicits.
Arguments Collaborators F : clear implicits.

(** ** The modern factory ([ezdxf/modern/__init__.py]) *)

(** A reference to an entity wrapper class: the module it lives in and its
    name, as in [graphics.Point]. *)
Inductive Wrapper : Type := Cls (module name : string).

(** A dict literal: later entries win over earlier ones with the same key. *)
Definition dict_literal {V : Type} (entries : list (string * V)) : gmap string V :=
  foldl (λ d kv, <[kv.1 := kv.2]> d) ∅ entries.

(** [d.update(other)]: every item of [other] is stored into [d]. *)
Definition dict_update {V : Type} (d other : gmap string V) : gmap string V :=
  map_fold (λ k v acc, <[k := v]> acc) d other.

Definition UPDATE_ENTITY_WRAPPERS : gmap string Wrapper :=
  dict_literal
    [ (* DXF Objects *)
      ("DICTIONARY", Cls "dxfobjects" "DXFDictionary");
      ("ACDBDICTIONARYWDFLT", Cls "dxfobjects" "DXFDictionaryWithDefault");
      ("PLOTSETTINGS", Cls "dxfobjects" "DXFPlotSettings");
      ("LAYOUT", Cls "dxfobjects" "DXFLayout");
      ("XRECORD", Cls "dxfobjects" "XRecord");
      ("DATATABLE", Cls "dxfobjects" "DXFDataTable");
      (* DXF Table Entries *)
      ("LAYER", Cls "tableentries" "Layer");
      ("STYLE", Cls "tableentries" "Style");
      ("LTYPE", Cls "tableentries" "Linetype");
      ("DIMSTYLE", Cls "tableentries" "DimStyle");
      ("VIEW", Cls "tableentries" "View");
      ("VPORT", Cls "tableentries" "Viewport");
      ("UCS", Cls "tableentries" "UCS");
      ("APPID", Cls "tableentries" "AppID");
      ("BLOCK_RECORD", Cls "tableentries" "BlockRecord");
      (* DXF Entities *)
      ("LINE", Cls "graphics" "Line");
      ("POINT", Cls "graphics" "Point");
      ("CIRCLE", Cls "graphics" "Circle");
      ("ARC", Cls "graphics" "Arc");
      ("TRACE", Cls "graphics" "Trace");
      ("SOLID", Cls "graphics" "Solid");
      ("3DFACE", Cls "graphics" "Face");
      ("TEXT", Cls "graphics" "Text");
      ("MTEXT", Cls "graphics" "MText");
      ("POLYLINE", Cls "graphics" "Polyline");
      ("VERTEX", Cls "graphics" "Vertex");
      ("SEQEND", Cls "graphics" "SeqEnd");
      ("LWPOLYLINE", Cls "graphics" "LWPolyline");
      ("BLOCK", Cls "graphics" "Block");
      ("ENDBLK", Cls "graphics" "EndBlk");
      ("INSERT", Cls "graphics" "Insert");
      ("ATTDEF", Cls "graphics" "Attdef");
      ("ATTRIB", Cls "graphics" "Attrib");
      ("ELLIPSE", Cls "graphics" "Ellipse");
      ("RAY", Cls "graphics" "Ray");
      ("XLINE", Cls "graphics" "XLine");
      ("SHAPE", Cls "graphics" "Shape");
      ("SPLINE", Cls "graphics" "Spline");
      ("BODY", Cls "graphics" "Body");
      ("REGION", Cls "graphics" "Region");
      ("3DSOLID", Cls "graphics" "Solid3d") ].

(** A factory object: the drawing it serves and its wrapper table. *)
Record DXFFactory (Drawing : Type) : Type := mkFactory {
  drawing : Drawing;
  ENTITY_WRAPPERS : gmap string Wrapper;
}.
Arguments mkFactory {Drawing} drawing ENTITY_WRAPPERS.
Arguments drawing {Drawing} _.
Arguments ENTITY_WRAPPERS {Drawing} _.

(** What the modern factory takes from code that is not under src/. *)
Class LegacyLayer : Type := {
  Drawing : Type;
  (** the type of tag containers handed to [modify_tags] *)
  ExtendedTags : Type;
  (** [LegacyDXFFactory.__init__(drawing)]: the factory object as the base
      class leaves it, with the legacy wrapper table *)
  LegacyDXFFactory_init : Drawing → DXFFactory Drawing;
  (** [tags.dxftype()] *)
  dxftype : ExtendedTags → string;
  (** [graphics.Vertex.fix_tags], the state of the tags after the call *)
  Vertex_fix_tags : ExtendedTags → ExtendedTags;
}.

Section FactoryModel.
Context {legacy : LegacyLayer}.

(** [ModernDXFFactory.__init__] *)
Definition ModernDXFFactory_init (d : Drawing) : DXFFactory Drawing :=
  let self := LegacyDXFFactory_init d in
  mkFactory (drawing self)
    (dict_update (ENTITY_WRAPPERS self) UPDATE_ENTITY_WRAPPERS).

(** [TAGS_MODIFIER = {'VERTEX': graphics.Vertex.fix_tags}] *)
Definition TAGS_MODIFIER : gmap string (ExtendedTags → ExtendedTags) :=
  dict_literal [ ("VERTEX", Vertex_fix_tags) ].

(** [modify_tags] against an arbitrary hook table (a subclass may replace
    the class attribute); the result is the state of [tags] after the call. *)
Definition modify_tags_with (table : gmap string (ExtendedTags → ExtendedTags))
    (tags : ExtendedTags) : ExtendedTags :=
  match table !! dxftype tags with
  | Some modifier => modifier tags
  | None => tags
  end.

(** [ModernDXFFactory.modify_tags] *)
Definition modify_tags (tags : ExtendedTags) : ExtendedTags :=
  modify_tags_with TAGS_MODIFIER tags.

End FactoryModel.

(** ** Mesh editing ([ezdxf.modern.mesh], exercised by test_mesh.py) *)

Section MeshModel.
Context {C : Type} `{EqDecision C} {W : Type}.

(** A vertex as the caller passes it: a sequence of coordinates. *)
Definition Vertex : Type := list C.

(** The mutable view of an edit session. *)
Record MeshData : Type := mkMeshData {
  vertices : list Vertex;
  faces : list (list nat);
  edges : list (list nat);
  edge_crease_values : list W;
}.

(** Modelled from the spec: [MeshData.add_vertex] is not under src/.  It
    rejects a vertex that has not exactly three coordinates before it
    touches the data, else appends it and returns its index. *)
Definition add_vertex (vertex : Vertex) : Exec MeshData nat :=
  if negb (Nat.eqb (length vertex) 3) then raise DXFValueError
  else λ md,
    (Ok (length (vertices md)),
     mkMeshData (vertices md ++ [vertex]) (faces md) (edges md)
       (edge_crease_values md)).

Fixpoint add_vertices (vs : list Vertex) : Exec MeshData (list nat) :=
  match vs with
  | [] => exec_ret []
  | v :: more =>
      do i <- add_vertex v;
      do rest <- add_vertices more;
      exec_ret (i :: rest)
  end.

(** Modelled from the spec: [add_face] is not under src/; the tests fix its
    behaviour: every corner is added as a new vertex and the face is the
    list of the new indices. *)
Definition add_face (vs : list Vertex) : Exec MeshData (list nat) :=
  do indices <- add_vertices vs;
  modify_state (λ md, mkMeshData (vertices md) (faces md ++ [indices])
                        (edges md) (edge_crease_values md));;
  exec_ret indices.

(** Modelled from the spec: [add_edge] is not under src/.  An edge is a
    pair of indices: a call with another number of vertices violates the
    shape of the data and is rejected before anything is touched; with two
    vertices it works as [add_face] does, into the edges. *)
Definition add_edge (vs : list Vertex) : Exec MeshData (list nat) :=
  if negb (Nat.eqb (length vs) 2) then raise DXFValueError
  else
    do indices <- add_vertices vs;
    modify_state (λ md, mkMeshData (vertices md) (faces md)
                          (edges md ++ [indices]) (edge_crease_values md));;
    exec_ret indices.

(** The mapping from vertex position to canonical index: a dict, kept in
    insertion order. *)
Definition VertexMap : Type := list (Vertex * nat).

Fixpoint lookup_position (v : Vertex) (m : VertexMap) : option nat :=
  match m with
  | [] => None
  | (x, i) :: rest => if decide (x = v) then Some i else lookup_position v rest
  end.

(** One step of building the mapping: a position seen for the first time
    gets the next free index. *)
Definition note_position (m : VertexMap) (v : Vertex) : VertexMap :=
  match lookup_position v m with
  | Some _ => m
  | None => m ++ [(v, length m)]
  end.

Definition build_vertex_map (vs : list Vertex) : VertexMap :=
  foldl note_position [] vs.

(** An index is rewritten through the position it refers to; an index that
    refers to no vertex has no image. *)
Definition remap_index (vs : list Vertex) (m : VertexMap) (i : nat) : option nat :=
  match vs !! i with
  | Some v => lookup_position v m
  | None => None
  end.

Definition remap_indices (vs : list Vertex) (m : VertexMap)
    (entries : list (list nat)) : option (list (list nat)) :=
  mapM (mapM (remap_index vs m)) entries.

(** The number of distinct indices of a face or an edge. *)
Definition distinct_indices (entry : list nat) : nat :=
  length (remove_dups entry).

Definition drop_degenerate (minimum : nat) (entries : list (list nat))
  : list (list nat) :=
  filter (λ entry, (minimum ≤ distinct_indices entry)%nat) entries.

(** The crease weights run parallel to the edges: the weight of an edge
    that is dropped goes with it.  [keep] tells, edge by edge, which ones
    stay; weights beyond the edges are left alone. *)
Fixpoint drop_parallel (keep : list bool) (weights : list W) : list W :=
  match keep, weights with
  | k :: keep', w :: weights' =>
      if k then w :: drop_parallel keep' weights'
      else drop_parallel keep' weights'
  | [], _ => weights
  | _ :: _, [] => []
  end.

(** Modelled from the spec: [optimize] is not under src/.  Section 4.6: build
    the position-to-index mapping in first-occurrence order, rewrite every
    face and edge through it, replace the vertices by the distinct positions
    in canonical order, and drop faces left with fewer than three and edges
    left with fewer than two distinct indices, an edge together with its
    crease weight.  [None] when a face or edge holds an index that is no
    position of the vertex sequence. *)
Definition optimized (md : MeshData) : option MeshData :=
  let index_map := build_vertex_map (vertices md) in
  match remap_indices (vertices md) index_map (faces md),
        remap_indices (vertices md) index_map (edges md) with
  | Some fs, Some es =>
      Some (mkMeshData (index_map.*1) (drop_degenerate 3 fs)
              (drop_degenerate 2 es)
              (drop_parallel
                 ((λ edge, bool_decide (2 ≤ distinct_indices edge)%nat) <$> es)
                 (edge_crease_values md)))
  | _, _ => None
  end.

(** [mesh_data.optimize()] as a call on the session's data. *)
Definition optimize : Exec MeshData unit :=
  λ md, match optimized md with
        | Some md' => (Ok tt, md')
        | None => (Raise DXFIndexError, md)
        end.

(** The mapping numbers pairwise distinct positions by their place in it. *)
Definition canonical (m : VertexMap) : Prop :=
  NoDup (m.*1) ∧ ∀ j v i, m !! j = Some (v, i) → i = j.

(** Every index of every face and edge refers to a vertex. *)
Definition indices_valid (md : MeshData) : Prop :=
  Forall (Forall (λ i, (i < length (vertices md))%nat)) (faces md ++ edges md).

End MeshModel.
Arguments Vertex C : clear implicits.
Arguments VertexMap C : clear implicits.
Arguments MeshData C W : clear implicits.

(** ** Stand-ins for concrete runs *)

(** A base class that loads and exports nothing and a helper that leaves
    thickness and extrusion as they are, over integer coordinates; the
    legacy revision is DXF R12, version string AC1009. *)
Definition Z_collaborators : Collaborators Z :=
  {| DXF12 := "AC1009";
     thickness_and_extrusion := λ _ t x, (t, x);
     super_load_dxf_attribs := λ _, exec_ret ∅;
     super_export_tags := λ _ _, [] |}.

(** A legacy layer whose wrapper table knows two legacy classes, with tags
    as plain tag lists, the type name in the first tag, and a fixup that
    appends a sub-record marker. *)
Definition Z_legacy_layer : LegacyLayer :=
  {| Drawing := unit;
     ExtendedTags := list (DXFTag Z);
     LegacyDXFFactory_init := λ d,
       mkFactory d (dict_literal [ ("POINT", Cls "legacy.graphics" "Point");
                                   ("VIEWPORT", Cls "legacy.graphics" "Viewport") ]);
     dxftype := λ tags, match tags with
                        | (_, VStr name) :: _ => name
                        | _ => ""
                        end;
     Vertex_fix_tags := λ tags, tags ++ [(100%Z, VStr "AcDbVertex")] |}.

(** The data of [test_optimize]: the eight corners of the unit cube and its
    six faces. *)
Definition cube_vertices : list (list Z) :=
  [ [0; 0; 0]; [1; 0; 0]; [1; 1; 0]; [0; 1; 0];
    [0; 0; 1]; [1; 0; 1]; [1; 1; 1]; [0; 1; 1] ]%Z.

Definition cube_faces : list (list nat) :=
  [ [0; 1; 2; 3]; [4; 5; 6; 7]; [0; 1; 5; 4];
    [1; 2; 6; 5]; [3; 2; 6; 7]; [0; 3; 7; 4] ].

(** [msp.add_mesh()]: a mesh without geometry. *)
Definition empty_mesh : MeshData Z Z := mkMeshData [] [] [] [].

(** [for face in cube_faces: mesh_data.add_face([vertices[index] for index
    in face])] *)
Fixpoint add_cube_faces (fs : list (list nat)) : Exec (MeshData Z Z) unit :=
  match fs with
  | [] => exec_ret tt
  | face :: more =>
      add_face (map (λ index, nth index cube_vertices []) face);;
      add_cube_faces more
  end.

(** A notice reports a tag when the tag is among its tags. *)
Definition reported {F : Type} (t : DXFTag F) (log : list (string * list (DXFTag F)))
  : Prop :=
  ∃ notice, notice ∈ log ∧ t ∈ notice.2.

(** The group codes the descriptors of a schema consume. *)
Definition schema_codes {F : Type} (sc : DefSubclass F) : list Z :=
  (λ na, attr_code na.2) <$> subclass_attribs sc.

(** ** Further code of the modern factory *)

Section CopyLayout.
Context {F : Type}.

(** Reading [entity.dxf.<name>] of a stored entity against the schema [sc]
    of its class: the stored value, else the descriptor's default; an
    attribute the schema does not know, or a missing object, raises.  The
    attribute classes of the graphic entities are not under src/, so the
    schema is an argument. *)
Definition entity_getattr (sc : DefSubclass F) (self : ref) (name : string)
  : Exec (Heap F) (DXFValue F) :=
  λ h, match h !! self with
       | Some e =>
           match dxf_get (dxf e) sc name with
           | Some v => (Ok v, h)
           | None => (Raise DXFAttributeError, h)
           end
       | None => (Raise DXFAttributeError, h)
       end.

(** [ModernDXFFactory.copy_layout]: place [target_entity] in the same
    layout as [source_entity]. *)
Definition copy_layout (sc : DefSubclass F) (source_entity target_entity : ref)
  : Exec (Heap F) unit :=
  do paperspace <- entity_getattr sc source_entity "paperspace";
  setattr target_entity "paperspace" paperspace;;
  do owner <- entity_getattr sc source_entity "owner";
  setattr target_entity "owner" owner.

(** The tag an attribute contributes to a sub-record when it is present. *)
Definition optional_tag (code : Z) (v : option (DXFValue F)) : list (DXFTag F) :=
  match v with
  | Some x => [(code, x)]
  | None => []
  end.

End CopyLayout.

(** * Properties *)

(** ** Arithmetic and the exception monad *)

#[export] Instance Z_scalar_comm : ScalarComm Z.
Proof. intros a b. simpl. lia. Qed.

Lemma Vector_add_comm {F : Type} `{ScalarComm F} (a b : Vector F) :
  Vector_add a b = Vector_add b a.
Proof. unfold Vector_add. f_equal; apply fadd_comm. Qed.

(** ** POINT: transform and translate *)

Section PointFacts.
Context {F : Type} {scalar : Scalar F} {collab : Collaborators F}.

Lemma getattr_run (self : ref) (name : string) (h : Heap F) (e : DXFEntity F)
    (v : DXFValue F) :
  h !! self = Some e →
  dxf_get (dxf e) acdb_point name = Some v →
  getattr self name h = (Ok v, h).
Proof. intros Hself Hget. unfold getattr. by rewrite Hself, Hget. Qed.

Lemma setattr_run (self : ref) (name : string) (v : DXFValue F) (h : Heap F)
    (e : DXFEntity F) :
  h !! self = Some e →
  setattr self name v h = (Ok tt, <[self := mkEntity (<[name := v]> (dxf e))]> h).
Proof. intros Hself. unfold setattr. by rewrite Hself. Qed.

Lemma set_or_clear_other (name other : string) (v : option (DXFValue F))
    (ns : DXFNamespace F) :
  name ≠ other → set_or_clear name v ns !! other = ns !! other.
Proof.
  intros Hne. destruct v; simpl.
  - by rewrite lookup_insert_ne.
  - by rewrite lookup_delete_ne.
Qed.

(** The shared helper touches thickness and extrusion only. *)
Lemma helper_run (self : ref) (m : Matrix44 F) (h : Heap F) (e : DXFEntity F) :
  h !! self = Some e →
  ∃ e', transform_thickness_and_extrusion_without_ocs self m h
          = (Ok tt, <[self := e']> h)
        ∧ ∀ name, name ≠ "thickness" → name ≠ "extrusion" →
                  dxf e' !! name = dxf e !! name.
Proof.
  intros Hself. unfold transform_thickness_and_extrusion_without_ocs.
  rewrite Hself.
  destruct (thickness_and_extrusion m _ _) as [t x].
  eexists. split; [reflexivity |].
  intros name Ht Hx. simpl.
  rewrite !set_or_clear_other by done. done.
Qed.

(** What a run of [Point.transform] does to the store. *)
Lemma Point_transform_run (self : ref) (m : Matrix44 F) (h : Heap F)
    (e : DXFEntity F) (loc : Vector F) :
  h !! self = Some e →
  dxf_get (dxf e) acdb_point "location" = Some (VVec loc) →
  ∃ e', Point_transform self m h = (Ok self, <[self := e']> h)
        ∧ dxf e' !! "location" = Some (VVec (Matrix44_transform m loc))
        ∧ ∀ name, name ≠ "location" → name ≠ "thickness" →
                  name ≠ "extrusion" → dxf e' !! name = dxf e !! name.
Proof.
  intros Hself Hloc.
  set (e1 := mkEntity (<["location" := VVec (Matrix44_transform m loc)]> (dxf e))).
  destruct (helper_run self m (<[self := e1]> h) e1) as (e' & Hrun & Hframe).
  { apply lookup_insert_eq. }
  exists e'. split; [| split].
  - unfold Point_transform, exec_bind.
    rewrite (getattr_run self "location" h e (VVec loc)) by done.
    simpl. rewrite (setattr_run self _ _ h e) by done.
    fold e1. rewrite Hrun. by rewrite insert_insert_eq.
  - rewrite Hframe by done. subst e1. simpl. apply lookup_insert_eq.
  - intros name Hl Ht Hx. rewrite Hframe by done.
    subst e1. simpl. by rewrite lookup_insert_ne.
Qed.

(** What a run of [Point.translate] does to the store. *)
Lemma Point_translate_run (self : ref) (dx dy dz : F) (h : Heap F)
    (e : DXFEntity F) (loc : Vector F) :
  h !! self = Some e →
  dxf_get (dxf e) acdb_point "location" = Some (VVec loc) →
  Point_translate self dx dy dz h
  = (Ok self,
     <[self := mkEntity (<["location" := VVec (Vector_add (mkVector dx dy dz) loc)]>
                           (dxf e))]> h).
Proof.
  intros Hself Hloc. unfold Point_translate, exec_bind.
  rewrite (getattr_run self "location" h e (VVec loc)) by done.
  simpl. by rewrite (setattr_run self _ _ h e) by done.
Qed.

(** C1.  [Point.transform(m)] on a stored POINT whose location is a 3D
    vector succeeds, replaces the location by its image under the full
    affine transform [m], and leaves the angle attribute as it was, both the
    stored value and the value a read yields. *)
Theorem Point_transform_keeps_angle (self : ref) (m : Matrix44 F) (h : Heap F)
    (e : DXFEntity F) (loc : Vector F) :
  h !! self = Some e →
  dxf_get (dxf e) acdb_point "location" = Some (VVec loc) →
  ∃ e', Point_transform self m h = (Ok self, <[self := e']> h)
        ∧ dxf e' !! "location" = Some (VVec (Matrix44_transform m loc))
        ∧ dxf e' !! "angle" = dxf e !! "angle"
        ∧ dxf_get (dxf e') acdb_point "angle" = dxf_get (dxf e) acdb_point "angle".
Proof.
  intros Hself Hloc.
  destruct (Point_transform_run self m h e loc Hself Hloc) as (e' & Hrun & Hl & Hframe).
  exists e'. repeat split; try done.
  - by apply Hframe.
  - unfold dxf_get. by rewrite (Hframe "angle").
Qed.

(** C2.  [Point.translate(dx, dy, dz)] on a stored POINT whose location is a
    3D vector succeeds and replaces the location by the sum of the offset
    vector and the location (which is the location plus the offset when the
    coordinate addition commutes); thickness, extrusion, angle and every
    other attribute stay untouched. *)
Theorem Point_translate_shifts_location (self : ref) (dx dy dz : F) (h : Heap F)
    (e : DXFEntity F) (loc : Vector F) :
  h !! self = Some e →
  dxf_get (dxf e) acdb_point "location" = Some (VVec loc) →
  ∃ e', Point_translate self dx dy dz h = (Ok self, <[self := e']> h)
        ∧ dxf e' !! "location"
          = Some (VVec (Vector_add (mkVector dx dy dz) loc))
        ∧ (ScalarComm F →
           dxf e' !! "location"
           = Some (VVec (Vector_add loc (mkVector dx dy dz))))
        ∧ dxf e' !! "thickness" = dxf e !! "thickness"
        ∧ dxf e' !! "extrusion" = dxf e !! "extrusion"
        ∧ dxf e' !! "angle" = dxf e !! "angle"
        ∧ ∀ name, name ≠ "location" → dxf e' !! name = dxf e !! name.
Proof.
  intros Hself Hloc. eexists. split.
  { by apply (Point_translate_run self dx dy dz h e loc). }
  simpl. repeat split.
  - apply lookup_insert_eq.
  - intros Hcomm. rewrite lookup_insert_eq.
    by rewrite (Vector_add_comm loc).
  - by rewrite lookup_insert_ne.
  - by rewrite lookup_insert_ne.
  - by rewrite lookup_insert_ne.
  - intros name Hne. by rewrite lookup_insert_ne.
Qed.

(** C9.  Both [transform] and [translate] return the reference they were
    called on and mutate the object in place: in the store they leave
    behind, the object found at that very reference carries the new
    location (the image under [m], respectively the offset added to the
    old location) and its untouched attributes as before; no other object
    changes and none is created. *)
Theorem Point_transform_translate_return_self (self : ref) (m : Matrix44 F)
    (dx dy dz : F) (h : Heap F) (e : DXFEntity F) (loc : Vector F) :
  h !! self = Some e →
  dxf_get (dxf e) acdb_point "location" = Some (VVec loc) →
  (∃ e', Point_transform self m h = (Ok self, <[self := e']> h)
         ∧ <[self := e']> h !! self = Some e'
         ∧ dxf e' !! "location" = Some (VVec (Matrix44_transform m loc))
         ∧ (∀ name, name ≠ "location" → name ≠ "thickness" →
                    name ≠ "extrusion" → dxf e' !! name = dxf e !! name)
         ∧ dom (<[self := e']> h) = dom h
         ∧ ∀ other, other ≠ self → <[self := e']> h !! other = h !! other)
  ∧ (∃ e', Point_translate self dx dy dz h = (Ok self, <[self := e']> h)
           ∧ <[self := e']> h !! self = Some e'
           ∧ dxf e' !! "location"
             = Some (VVec (Vector_add (mkVector dx dy dz) loc))
           ∧ (∀ name, name ≠ "location" → dxf e' !! name = dxf e !! name)
           ∧ dom (<[self := e']> h) = dom h
           ∧ ∀ other, other ≠ self → <[self := e']> h !! other = h !! other).
Proof.
  intros Hself Hloc.
  assert (Hdom : ∀ e' : DXFEntity F, dom (<[self := e']> h) = dom h).
  { intros e'. rewrite dom_insert_L.
    pose proof (elem_of_dom_2 _ _ _ Hself) as Hin.
    apply set_eq. intros x. rewrite elem_of_union, elem_of_singleton.
    split; [intros [-> | Hx]; done | by right]. }
  split.
  - destruct (Point_transform_run self m h e loc Hself Hloc)
      as (e' & Hrun & Hl & Hframe).
    exists e'. split; [done |]. split; [apply lookup_insert_eq |].
    split; [done |]. split; [done |]. split; [apply Hdom |].
    intros other Hne. by rewrite lookup_insert_ne.
  - eexists. split.
    { by apply (Point_translate_run self dx dy dz h e loc). }
    split; [apply lookup_insert_eq |]. cbn [dxf].
    split; [apply lookup_insert_eq |]. split.
    { intros name Hne. by rewrite lookup_insert_ne. }
    split; [apply Hdom |].
    intros other Hne. by rewrite lookup_insert_ne.
Qed.

End PointFacts.

(** A stored POINT over integer coordinates, drawn with a UCS angle of 45,
    and a matrix that doubles every coordinate and then shifts by
    (10, 20, 30). *)
Lemma Point_transform_keeps_angle_witness :
  let pt : DXFEntity Z :=
    mkEntity (<["location" := VVec (mkVector 1 2 3)]> (<["angle" := VInt 45]> ∅))%Z in
  let m : Matrix44 Z := (mkMatrix44 2 0 0 0  0 2 0 0  0 0 2 0  10 20 30 1)%Z in
  ∃ e', Point_transform (collab := Z_collaborators) 7 m {[7 := pt]}
        = (Ok 7, <[7 := e']> {[7 := pt]})
        ∧ dxf e' !! "location" = Some (VVec (Matrix44_transform m (mkVector 1 2 3)))%Z
        ∧ dxf e' !! "angle" = dxf pt !! "angle"
        ∧ dxf_get (dxf e') acdb_point "angle" = dxf_get (dxf pt) acdb_point "angle".
Proof.
  intros pt m.
  apply (Point_transform_keeps_angle (collab := Z_collaborators) 7 m
           {[7 := pt]} pt (mkVector 1 2 3)%Z); reflexivity.
Defined.

Lemma Point_translate_shifts_location_witness :
  let pt : DXFEntity Z :=
    mkEntity (<["location" := VVec (mkVector 1 2 3)]> (<["angle" := VInt 45]> ∅))%Z in
  ∃ e', Point_translate 7 10%Z 20%Z 30%Z {[7 := pt]} = (Ok 7, <[7 := e']> {[7 := pt]})
        ∧ dxf e' !! "location"
          = Some (VVec (Vector_add (mkVector 10 20 30) (mkVector 1 2 3)))%Z
        ∧ (ScalarComm Z →
           dxf e' !! "location"
           = Some (VVec (Vector_add (mkVector 1 2 3) (mkVector 10 20 30)))%Z)
        ∧ dxf e' !! "thickness" = dxf pt !! "thickness"
        ∧ dxf e' !! "extrusion" = dxf pt !! "extrusion"
        ∧ dxf e' !! "angle" = dxf pt !! "angle"
        ∧ ∀ name, name ≠ "location" → dxf e' !! name = dxf pt !! name.
Proof.
  intros pt.
  apply (Point_translate_shifts_location 7 10%Z 20%Z 30%Z {[7 := pt]} pt
           (mkVector 1 2 3)%Z); reflexivity.
Defined.

Lemma Point_transform_translate_return_self_witness :
  let pt : DXFEntity Z :=
    mkEntity (<["location" := VVec (mkVector 1 2 3)]> (<["angle" := VInt 45]> ∅))%Z in
  let m : Matrix44 Z := (mkMatrix44 2 0 0 0  0 2 0 0  0 0 2 0  10 20 30 1)%Z in
  let h : Heap Z := {[7 := pt; 8 := mkEntity ∅]} in
  (∃ e', Point_transform (collab := Z_collaborators) 7 m h
         = (Ok 7, <[7 := e']> h)
         ∧ <[7 := e']> h !! 7 = Some e'
         ∧ dxf e' !! "location"
           = Some (VVec (Matrix44_transform m (mkVector 1 2 3)))%Z
         ∧ (∀ name, name ≠ "location" → name ≠ "thickness" →
                    name ≠ "extrusion" → dxf e' !! name = dxf pt !! name)
         ∧ dom (<[7 := e']> h) = dom h
         ∧ ∀ other, other ≠ 7 → <[7 := e']> h !! other = h !! other)
  ∧ (∃ e', Point_translate 7 10%Z 20%Z 30%Z h = (Ok 7, <[7 := e']> h)
           ∧ <[7 := e']> h !! 7 = Some e'
           ∧ dxf e' !! "location"
             = Some (VVec (Vector_add (mkVector 10 20 30) (mkVector 1 2 3)))%Z
           ∧ (∀ name, name ≠ "location" → dxf e' !! name = dxf pt !! name)
           ∧ dom (<[7 := e']> h) = dom h
           ∧ ∀ other, other ≠ 7 → <[7 := e']> h !! other = h !! other).
Proof.
  intros pt m h.
  apply (Point_transform_translate_return_self (collab := Z_collaborators)
           7 m 10%Z 20%Z 30%Z h pt (mkVector 1 2 3)%Z); reflexivity.
Defined.

(** ** POINT: loading and export *)

Section LoadExportFacts.
Context {F : Type} {scalar : Scalar F} {collab : Collaborators F}.

Lemma take_first_code_Some (c : Z) (tags rest : list (DXFTag F)) (t : DXFTag F) :
  take_first_code c tags = Some (t, rest) →
  tag_code t = c ∧ ∀ u, u ∈ tags → u = t ∨ u ∈ rest.
Proof.
  revert rest. induction tags as [| x tags IH]; intros rest Htake; [done |].
  simpl in Htake. destruct (Z.eqb_spec (tag_code x) c) as [Heq | Hne].
  - inversion Htake; subst. split; [done |].
    intros u Hu. apply elem_of_cons in Hu. tauto.
  - destruct (take_first_code c tags) as [[t' rest'] |]; [| done].
    inversion Htake; subst. destruct (IH rest' eq_refl) as [Hc Hsplit].
    split; [done |]. intros u Hu. apply elem_of_cons in Hu as [-> | Hu].
    + right. apply elem_of_cons. by left.
    + destruct (Hsplit u Hu) as [-> | Hin]; [by left |].
      right. apply elem_of_cons. by right.
Qed.

Lemma take_first_code_sublist (c : Z) (tags rest : list (DXFTag F)) (t : DXFTag F) :
  take_first_code c tags = Some (t, rest) → sublist rest tags.
Proof.
  revert rest. induction tags as [| x tags IH]; intros rest Htake; [done |].
  simpl in Htake. destruct (Z.eqb (tag_code x) c).
  - inversion Htake; subst. by apply sublist_cons.
  - destruct (take_first_code c tags) as [[t' rest'] |]; [| done].
    inversion Htake; subst. apply sublist_skip. by apply IH.
Qed.

(** A tag whose group code belongs to no descriptor ends up in the residue,
    and the residue holds tags of the sub-record only, in their order. *)
Lemma load_tags_residue (attribs : list (string * DXFAttr F))
    (ns ns' : DXFNamespace F) (tags residue : list (DXFTag F)) :
  load_tags_into_namespace attribs ns tags = Ok (ns', residue) →
  sublist residue tags
  ∧ ∀ u, u ∈ tags → tag_code u ∉ ((λ na, attr_code na.2) <$> attribs) →
         u ∈ residue.
Proof.
  revert ns tags. induction attribs as [| [name a] more IH]; intros ns tags Hload.
  - simpl in Hload. inversion Hload; subst. done.
  - simpl in Hload.
    destruct (take_first_code (attr_code a) tags) as [[t rest] |] eqn:Htake.
    + destruct (shape_ok _ _); [| done].
      destruct (IH _ _ Hload) as [Hsub Hres].
      destruct (take_first_code_Some _ _ _ _ Htake) as [Hcode Hsplit].
      split.
      * etrans; [exact Hsub |]. by eapply take_first_code_sublist.
      * intros u Hu Hnot. rewrite fmap_cons, not_elem_of_cons in Hnot.
        destruct Hnot as [Hne Hnot]. simpl in Hne.
        destruct (Hsplit u Hu) as [-> | Hin]; [congruence |].
        by apply Hres.
    + destruct (IH _ _ Hload) as [Hsub Hres]. split; [done |].
      intros u Hu Hnot. rewrite fmap_cons, not_elem_of_cons in Hnot.
      apply Hres; tauto.
Qed.

(** C3, as the code has it.  When the parent loader and the schema-driven
    loader succeed, [Point.load_dxf_attribs] returns the filled namespace.
    Under a marker-delimited revision the notices are those of the parent
    followed by one notice, named AcDbPoint, that carries the whole residue
    (none when the residue is empty), so every tag of the AcDbPoint
    sub-record whose group code no descriptor consumes is reported.  Under
    the legacy revision the POINT loader adds no notice at all. *)
Theorem Point_load_reports_residue (p : SubclassProcessor F)
    (log log0 : list (Notice F)) (dxf0 dxf1 : DXFNamespace F)
    (residue : list (DXFTag F)) :
  super_load_dxf_attribs (Some p) log = (Ok dxf0, log0) →
  load_dxfattribs_into_namespace p dxf0 acdb_point = Ok (dxf1, residue) →
  ∃ log1, Point_load_dxf_attribs (Some p) log = (Ok dxf1, log1)
    ∧ (r12 p = false →
       log1 = log0 ++ match residue with
                      | [] => []
                      | _ => [("AcDbPoint", residue)]
                      end
       ∧ ∀ tags t, find_subclass p "AcDbPoint" = Some tags → t ∈ tags →
                   tag_code t ∉ schema_codes acdb_point → reported t log1)
    ∧ (r12 p = true → log1 = log0).
Proof.
  intros Hsuper Hload.
  unfold Point_load_dxf_attribs, exec_bind. rewrite Hsuper, Hload.
  destruct (r12 p) eqn:Hr12.
  - exists log0. rewrite andb_false_r. simpl. split; [done |]. split; done.
  - rewrite andb_true_r. destruct residue as [| r residue].
    + exists log0. simpl. split; [done |]. split; [| done].
      intros _. split; [by rewrite app_nil_r |].
      intros tags t Hfind Hin Hcode.
      unfold load_dxfattribs_into_namespace in Hload.
      change (subclass_name acdb_point) with "AcDbPoint" in Hload.
      rewrite Hfind in Hload.
      destruct (load_tags_residue _ _ _ _ _ Hload) as [_ Hres].
      specialize (Hres t Hin Hcode). by apply elem_of_nil in Hres.
    + eexists. simpl. split; [reflexivity |]. split; [| done].
      intros _. split; [done |].
      intros tags t Hfind Hin Hcode.
      unfold load_dxfattribs_into_namespace in Hload.
      change (subclass_name acdb_point) with "AcDbPoint" in Hload.
      rewrite Hfind in Hload.
      destruct (load_tags_residue _ _ _ _ _ Hload) as [_ Hres].
      exists ("AcDbPoint", r :: residue). split.
      * apply elem_of_app. right. by apply list_elem_of_singleton.
      * simpl. by apply Hres.
Qed.

(** C4.  [Point.export_entity] appends to the writer, after the tags of the
    parent class, the marker tag (100, AcDbPoint) exactly when the target
    version is later than DXF12, and then the tags of location, thickness,
    extrusion and angle in this order; location, which is required, is
    always among them, and their group codes follow the declared order
    10, 39, 210, 50. *)
Theorem Point_export_entity_tags (self : DXFEntity F) (tw : TagWriter F) :
  let marker : list (DXFTag F) :=
    if String.ltb DXF12 (dxfversion tw)
    then [(100%Z, VStr "AcDbPoint")] else [] in
  let attribs :=
    attrib_tags (dxf self) acdb_point "location"
    ++ attrib_tags (dxf self) acdb_point "thickness"
    ++ attrib_tags (dxf self) acdb_point "extrusion"
    ++ attrib_tags (dxf self) acdb_point "angle" in
  Point_export_entity self tw
  = (Ok tt, mkTagWriter (dxfversion tw)
              (written tw ++ super_export_tags self (dxfversion tw)
               ++ marker ++ attribs))
  ∧ ((100%Z, VStr "AcDbPoint") ∈ marker ++ attribs
     ↔ String.ltb DXF12 (dxfversion tw) = true)
  ∧ sublist (tag_code <$> attribs) [10; 39; 210; 50]%Z
  ∧ head (tag_code <$> attribs) = Some 10%Z.
Proof.
  intros marker attribs. split; [| split; [| split]].
  - unfold Point_export_entity, super_export_entity, exec_bind, get_state,
      modify_state, write_tag2. simpl.
    subst marker attribs.
    destruct (String.ltb DXF12 (dxfversion tw)); simpl;
      unfold exec_bind, modify_state, exec_ret; simpl;
      do 2 f_equal; rewrite <- ?app_assoc; reflexivity.
  - subst marker attribs. unfold attrib_tags. cbn.
    destruct (String.ltb DXF12 (dxfversion tw)); simpl.
    + split; [done |]. intros _. apply elem_of_cons. by left.
    + split; [| done]. intros Hin.
      destruct (dxf self !! "location"), (dxf self !! "thickness"),
        (dxf self !! "extrusion"), (dxf self !! "angle"); simpl in Hin;
        repeat (apply elem_of_cons in Hin as [Hin | Hin]; [by inversion Hin |]);
        by apply elem_of_nil in Hin.
  - subst attribs. unfold attrib_tags. cbn.
    destruct (dxf self !! "location"), (dxf self !! "thickness"),
      (dxf self !! "extrusion"), (dxf self !! "angle"); cbn;
      repeat constructor.
  - subst attribs. unfold attrib_tags. cbn.
    by destruct (dxf self !! "location").
Qed.

End LoadExportFacts.

Lemma Point_load_reports_residue_witness :
  let tags : list (DXFTag Z) :=
    [ (10, VVec (mkVector 1 2 3)); (999, VStr "future"); (50, VInt 45) ]%Z in
  let p : SubclassProcessor Z :=
    mkProcessor false [ [(0%Z, VStr "POINT")]; (100%Z, VStr "AcDbPoint") :: tags ] in
  let dxf1 : DXFNamespace Z :=
    <["angle" := VInt 45]> (<["location" := VVec (mkVector 1 2 3)%Z]> ∅) in
  ∃ log1, Point_load_dxf_attribs (collab := Z_collaborators) (Some p) [] = (Ok dxf1, log1)
    ∧ (r12 p = false →
       log1 = [] ++ [("AcDbPoint", [(999%Z, VStr "future")])]
       ∧ ∀ tags t, find_subclass p "AcDbPoint" = Some tags → t ∈ tags →
                   tag_code t ∉ schema_codes (acdb_point (F := Z)) → reported t log1)
    ∧ (r12 p = true → log1 = []).
Proof.
  intros tags p dxf1.
  apply (Point_load_reports_residue (collab := Z_collaborators) p [] [] ∅ dxf1
           [(999%Z, VStr "future")]); reflexivity.
Defined.

(** C3 as the specification words it fails under the legacy revision: an
    R12 POINT whose only sub-record carries the unknown tag (999, future)
    loads, the tag is consumed by no descriptor of the point schema, and no
    notice reports it. *)
Lemma Point_load_legacy_residue_unreported :
  let tags : list (DXFTag Z) :=
    [ (10, VVec (mkVector 1 2 3)); (999, VStr "future"); (50, VInt 45) ]%Z in
  let p : SubclassProcessor Z := mkProcessor true [ tags ] in
  let t : DXFTag Z := (999%Z, VStr "future") in
  ∃ dxf1 log1,
    Point_load_dxf_attribs (collab := Z_collaborators) (Some p) [] = (Ok dxf1, log1)
    ∧ find_subclass p "AcDbPoint" = Some tags
    ∧ load_dxfattribs_into_namespace p ∅ acdb_point = Ok (dxf1, [t])
    ∧ t ∈ tags
    ∧ (tag_code t ∉ schema_codes (acdb_point (F := Z)))
    ∧ ¬ reported t log1.
Proof.
  intros tags p t. eexists _, []. split; [reflexivity |].
  split; [reflexivity |]. split; [reflexivity |]. split.
  - subst tags t. apply elem_of_cons. right. apply elem_of_cons. by left.
  - split.
    + intros Hin. cbn in Hin.
      repeat (apply elem_of_cons in Hin as [Hin | Hin]; [done |]).
      by apply elem_of_nil in Hin.
    + intros (notice & Hin & _). by apply elem_of_nil in Hin.
Qed.

(** Export of a POINT with a stored location and angle: the marker is
    written for AC1015 and left out for AC1009. *)
Example Point_export_AC1015 :
  Point_export_entity (collab := Z_collaborators)
    (mkEntity (<["location" := VVec (mkVector 1 2 3)%Z]> (<["angle" := VInt 45]> ∅)))
    (mkTagWriter "AC1015" [])
  = (Ok tt, mkTagWriter "AC1015"
              [ (100, VStr "AcDbPoint"); (10, VVec (mkVector 1 2 3)); (50, VInt 45) ]%Z).
Proof. reflexivity. Qed.

Example Point_export_AC1009 :
  Point_export_entity (collab := Z_collaborators)
    (mkEntity (<["location" := VVec (mkVector 1 2 3)%Z]> (<["angle" := VInt 45]> ∅)))
    (mkTagWriter "AC1009" [])
  = (Ok tt, mkTagWriter "AC1009"
              [ (10, VVec (mkVector 1 2 3)); (50, VInt 45) ]%Z).
Proof. reflexivity. Qed.

(** ** The modern factory *)

(** [d.update(other)] is the union of the two maps in which [other] wins. *)
Lemma dict_update_union {V : Type} (d other : gmap string V) :
  dict_update d other = other ∪ d.
Proof.
  unfold dict_update.
  apply (map_fold_weak_ind (λ r m, r = m ∪ d)).
  - by rewrite (left_id_L ∅ (∪)).
  - intros k v m r _ ->. by rewrite insert_union_l.
Qed.

Lemma dict_update_lookup {V : Type} (d other : gmap string V) (k : string) :
  dict_update d other !! k
  = match other !! k with
    | Some v => Some v
    | None => d !! k
    end.
Proof.
  rewrite dict_update_union, lookup_union.
  destruct (other !! k), (d !! k); done.
Qed.

Section FactoryFacts.
Context {legacy : LegacyLayer}.

(** C8.  The wrapper table of a modern factory is the table the legacy
    initialiser left, updated by UPDATE_ENTITY_WRAPPERS: a lookup consults
    the modern entries first and falls back to the legacy table, so a name
    in both resolves to the modern class and a name in the legacy table
    alone resolves to the legacy class. *)
Theorem ModernDXFFactory_wrappers_layered (d : Drawing) (name : string) :
  ENTITY_WRAPPERS (ModernDXFFactory_init d)
  = UPDATE_ENTITY_WRAPPERS ∪ ENTITY_WRAPPERS (LegacyDXFFactory_init d)
  ∧ ENTITY_WRAPPERS (ModernDXFFactory_init d) !! name
    = match UPDATE_ENTITY_WRAPPERS !! name with
      | Some modern => Some modern
      | None => ENTITY_WRAPPERS (LegacyDXFFactory_init d) !! name
      end
  ∧ (∀ modern old,
       UPDATE_ENTITY_WRAPPERS !! name = Some modern →
       ENTITY_WRAPPERS (LegacyDXFFactory_init d) !! name = Some old →
       ENTITY_WRAPPERS (ModernDXFFactory_init d) !! name = Some modern)
  ∧ (∀ old,
       UPDATE_ENTITY_WRAPPERS !! name = None →
       ENTITY_WRAPPERS (LegacyDXFFactory_init d) !! name = Some old →
       ENTITY_WRAPPERS (ModernDXFFactory_init d) !! name = Some old).
Proof.
  unfold ModernDXFFactory_init. cbn [ENTITY_WRAPPERS].
  split; [apply dict_update_union |].
  split; [apply dict_update_lookup |]. split.
  - intros modern old Hm _. by rewrite dict_update_lookup, Hm.
  - intros old Hm Hold. by rewrite dict_update_lookup, Hm.
Qed.

(** Without a hook for the type name the tags stay as they are; with one,
    the hook decides. *)
Lemma modify_tags_with_spec (table : gmap string (ExtendedTags → ExtendedTags))
    (tags : ExtendedTags) :
  (table !! dxftype tags = None → modify_tags_with table tags = tags)
  ∧ (∀ hook, table !! dxftype tags = Some hook →
             modify_tags_with table tags = hook tags).
Proof.
  unfold modify_tags_with. split.
  - by intros ->.
  - by intros hook ->.
Qed.

Lemma TAGS_MODIFIER_lookup (name : string) :
  TAGS_MODIFIER !! name = if decide (name = "VERTEX") then Some Vertex_fix_tags else None.
Proof.
  unfold TAGS_MODIFIER, dict_literal. simpl. case_decide as Hname.
  - subst. apply lookup_insert_eq.
  - rewrite lookup_insert_ne by done. apply lookup_empty.
Qed.

(** C10.  [modify_tags] leaves the tags unchanged when the hook table has
    no entry for their type name; in the modern factory that is every type
    name other than VERTEX, and for VERTEX the registered fixup is what is
    applied. *)
Theorem modify_tags_only_registered (tags : ExtendedTags) :
  (TAGS_MODIFIER !! dxftype tags = None → modify_tags tags = tags)
  ∧ (dxftype tags ≠ "VERTEX" → modify_tags tags = tags)
  ∧ (dxftype tags = "VERTEX" → modify_tags tags = Vertex_fix_tags tags).
Proof.
  unfold modify_tags. split; [| split].
  - apply modify_tags_with_spec.
  - intros Hne. apply modify_tags_with_spec.
    rewrite TAGS_MODIFIER_lookup. by case_decide.
  - intros Heq. apply modify_tags_with_spec.
    rewrite TAGS_MODIFIER_lookup. by case_decide.
Qed.

End FactoryFacts.

Lemma ModernDXFFactory_wrappers_layered_witness :
  let legacy_table :=
    ENTITY_WRAPPERS (LegacyDXFFactory_init (LegacyLayer := Z_legacy_layer) tt) in
  let modern_table :=
    ENTITY_WRAPPERS (ModernDXFFactory_init (legacy := Z_legacy_layer) tt) in
  modern_table = UPDATE_ENTITY_WRAPPERS ∪ legacy_table
  ∧ modern_table !! "VIEWPORT"
    = match UPDATE_ENTITY_WRAPPERS !! "VIEWPORT" with
      | Some modern => Some modern
      | None => legacy_table !! "VIEWPORT"
      end
  ∧ (∀ modern old,
       UPDATE_ENTITY_WRAPPERS !! "VIEWPORT" = Some modern →
       legacy_table !! "VIEWPORT" = Some old →
       modern_table !! "VIEWPORT" = Some modern)
  ∧ (∀ old,
       UPDATE_ENTITY_WRAPPERS !! "VIEWPORT" = None →
       legacy_table !! "VIEWPORT" = Some old →
       modern_table !! "VIEWPORT" = Some old).
Proof.
  intros legacy_table modern_table.
  apply (ModernDXFFactory_wrappers_layered (legacy := Z_legacy_layer) tt "VIEWPORT").
Defined.

(** POINT is in both tables and resolves to the modern class; VIEWPORT is
    in the legacy table alone and keeps its legacy class. *)
Example modern_factory_resolves_POINT :
  ENTITY_WRAPPERS (ModernDXFFactory_init (legacy := Z_legacy_layer) tt) !! "POINT"
  = Some (Cls "graphics" "Point").
Proof. vm_compute. reflexivity. Qed.

Example modern_factory_resolves_VIEWPORT :
  ENTITY_WRAPPERS (ModernDXFFactory_init (legacy := Z_legacy_layer) tt) !! "VIEWPORT"
  = Some (Cls "legacy.graphics" "Viewport").
Proof. vm_compute. reflexivity. Qed.

Lemma modify_tags_only_registered_witness :
  let line : list (DXFTag Z) := [ (0%Z, VStr "LINE"); (8%Z, VStr "0") ] in
  let vertex : list (DXFTag Z) := [ (0%Z, VStr "VERTEX"); (8%Z, VStr "0") ] in
  modify_tags (legacy := Z_legacy_layer) line = line
  ∧ modify_tags (legacy := Z_legacy_layer) vertex
    = vertex ++ [ (100%Z, VStr "AcDbVertex") ].
Proof.
  intros line vertex. split.
  - apply (modify_tags_only_registered (legacy := Z_legacy_layer) line). done.
  - apply (modify_tags_only_registered (legacy := Z_legacy_layer) vertex).
    reflexivity.
Defined.

(** ** Mesh editing *)

Section MeshFacts.
Context {C : Type} `{EqDecision C} {W : Type}.

(** C5.  [add_vertex] with a vertex that has not exactly three coordinates
    raises DXFValueError (the spec's InvalidValue) and hands back the mesh
    data it was given: vertices, faces, edges and crease values alike. *)
Theorem add_vertex_rejects_wrong_arity (md : MeshData C W) (vertex : list C) :
  length vertex ≠ 3 →
  add_vertex vertex md = (Raise DXFValueError, md)
  ∧ vertices (add_vertex vertex md).2 = vertices md
  ∧ faces (add_vertex vertex md).2 = faces md
  ∧ edges (add_vertex vertex md).2 = edges md.
Proof.
  intros Hlen. unfold add_vertex.
  destruct (Nat.eqb_spec (length vertex) 3) as [Heq | _]; [done |].
  simpl. done.
Qed.

(** With three coordinates the vertex is appended and its index returned. *)
Lemma add_vertex_accepts (md : MeshData C W) (x y z : C) :
  add_vertex [x; y; z] md
  = (Ok (length (vertices md)),
     mkMeshData (vertices md ++ [[x; y; z]]) (faces md) (edges md)
       (edge_crease_values md)).
Proof. reflexivity. Qed.

(** *** The position-to-index mapping *)

Lemma lookup_position_Some (m : VertexMap C) (v : Vertex C) (i : nat) :
  lookup_position v m = Some i → (v, i) ∈ m.
Proof.
  induction m as [| [x k] m IH]; simpl; [done |].
  case_decide as Hx.
  - intros [= ->]. subst. apply elem_of_cons. by left.
  - intros Hl. apply elem_of_cons. right. by apply IH.
Qed.

Lemma lookup_position_is_Some (m : VertexMap C) (v : Vertex C) :
  v ∈ m.*1 → is_Some (lookup_position v m).
Proof.
  induction m as [| [x k] m IH]; simpl.
  - by intros Hin%elem_of_nil.
  - intros Hin. case_decide as Hx; [by eexists |].
    apply elem_of_cons in Hin as [-> | Hin]; [done | by apply IH].
Qed.

Lemma lookup_position_None (m : VertexMap C) (v : Vertex C) :
  lookup_position v m = None → v ∉ m.*1.
Proof.
  intros Hnone Hin. apply lookup_position_is_Some in Hin as [i Hi]. congruence.
Qed.

(** In a canonical mapping the index of a position is its place among the
    keys. *)
Lemma canonical_lookup (m : VertexMap C) (v : Vertex C) (i : nat) :
  canonical m →
  lookup_position v m = Some i ↔ m.*1 !! i = Some v.
Proof.
  intros [Hnodup Hidx]. split.
  - intros Hl%lookup_position_Some.
    apply list_elem_of_lookup in Hl as [j Hj].
    rewrite (Hidx _ _ _ Hj). by rewrite list_lookup_fmap, Hj.
  - intros Hi.
    destruct (lookup_position_is_Some m v) as [k Hk].
    { apply list_elem_of_lookup. eauto. }
    assert (Hk' : m.*1 !! k = Some v).
    { apply lookup_position_Some, list_elem_of_lookup in Hk as [j Hj].
      rewrite (Hidx _ _ _ Hj). by rewrite list_lookup_fmap, Hj. }
    by rewrite (NoDup_lookup _ _ _ _ Hnodup Hi Hk').
Qed.

Lemma canonical_nil : canonical ([] : VertexMap C).
Proof. split; [constructor | done]. Qed.

Lemma note_position_keys (m : VertexMap C) (v : Vertex C) :
  (note_position m v).*1 = if decide (v ∈ m.*1) then m.*1 else m.*1 ++ [v].
Proof.
  unfold note_position. destruct (lookup_position v m) as [i |] eqn:Hl.
  - rewrite decide_True; [done |].
    apply lookup_position_Some in Hl.
    apply list_elem_of_fmap. by exists (v, i).
  - rewrite decide_False by by apply lookup_position_None.
    by rewrite fmap_app.
Qed.

Lemma note_position_canonical (m : VertexMap C) (v : Vertex C) :
  canonical m → canonical (note_position m v).
Proof.
  intros [Hnodup Hidx]. unfold note_position.
  destruct (lookup_position v m) eqn:Hl; [done |].
  apply lookup_position_None in Hl. split.
  - rewrite fmap_app. simpl. apply NoDup_app. split; [done |]. split.
    + intros x Hx Hv%list_elem_of_singleton. by subst.
    + apply NoDup_singleton.
  - intros j x i Hj. apply lookup_app_Some in Hj as [Hj | [Hge Hj]].
    + by eapply Hidx.
    + apply list_lookup_singleton_Some in Hj as [Hz [= <- <-]]. lia.
Qed.

Lemma build_canonical (vs : list (Vertex C)) (m : VertexMap C) :
  canonical m → canonical (foldl note_position m vs).
Proof.
  revert m. induction vs as [| v vs IH]; intros m Hm; [done |].
  simpl. by apply IH, note_position_canonical.
Qed.

(** Every position of the vertex sequence is a key of the mapping. *)
Lemma build_covers (vs : list (Vertex C)) (m : VertexMap C) (v : Vertex C) :
  v ∈ m.*1 ∨ v ∈ vs → v ∈ (foldl note_position m vs).*1.
Proof.
  revert m. induction vs as [| x vs IH]; intros m Hin; simpl.
  - destruct Hin as [Hin | Hin%elem_of_nil]; done.
  - apply IH. rewrite note_position_keys.
    destruct Hin as [Hin | Hin%elem_of_cons].
    + left. case_decide; [done |]. apply elem_of_app. by left.
    + destruct Hin as [-> | Hin]; [| by right].
      left. case_decide; [done |]. apply elem_of_app. right.
      by apply list_elem_of_singleton.
Qed.

(** The keys come from the vertex sequence. *)
Lemma build_sound (vs : list (Vertex C)) (m : VertexMap C) (v : Vertex C) :
  v ∈ (foldl note_position m vs).*1 → v ∈ m.*1 ∨ v ∈ vs.
Proof.
  revert m. induction vs as [| x vs IH]; intros m Hin; simpl in *; [by left |].
  apply IH in Hin as [Hin | Hin].
  - rewrite note_position_keys in Hin. case_decide; [by left |].
    apply elem_of_app in Hin as [Hin | Hin%list_elem_of_singleton]; [by left |].
    right. apply elem_of_cons. by left.
  - right. apply elem_of_cons. by right.
Qed.

(** On pairwise distinct positions the keys are the positions themselves. *)
Lemma build_distinct (vs : list (Vertex C)) (m : VertexMap C) :
  NoDup (m.*1 ++ vs) → (foldl note_position m vs).*1 = m.*1 ++ vs.
Proof.
  revert m. induction vs as [| v vs IH]; intros m Hnodup; simpl.
  - by rewrite app_nil_r.
  - assert (Hv : v ∉ m.*1).
    { apply NoDup_app in Hnodup as (_ & Hdisj & _).
      intros Hin. apply (Hdisj v Hin). apply elem_of_cons. by left. }
    assert (Hkeys : (note_position m v).*1 = m.*1 ++ [v]).
    { rewrite note_position_keys. by rewrite decide_False. }
    rewrite IH; rewrite Hkeys, <- app_assoc; done.
Qed.

Lemma build_vertex_map_canonical (vs : list (Vertex C)) :
  canonical (build_vertex_map vs).
Proof. apply build_canonical, canonical_nil. Qed.

(** The new vertex sequence holds each position once, in the order of first
    occurrence: it is a subsequence of the old one with the same members. *)
Lemma build_vertex_map_keys (vs : list (Vertex C)) :
  NoDup (build_vertex_map vs).*1
  ∧ ∀ v, v ∈ (build_vertex_map vs).*1 ↔ v ∈ vs.
Proof.
  split; [apply build_vertex_map_canonical |].
  intros v. split.
  - intros Hin. apply build_sound in Hin as [Hin%elem_of_nil | Hin]; done.
  - intros Hin. apply build_covers. by right.
Qed.

(** *** Rewriting indices *)

Lemma remap_index_lt (vs : list (Vertex C)) (i k : nat) :
  remap_index vs (build_vertex_map vs) i = Some k →
  k < length (build_vertex_map vs).*1.
Proof.
  unfold remap_index. destruct (vs !! i) as [v |]; [| done].
  intros Hl. eapply lookup_lt_Some.
  by apply (canonical_lookup _ v k (build_vertex_map_canonical vs)).
Qed.

Lemma remap_index_valid (vs : list (Vertex C)) (i : nat) :
  i < length vs → is_Some (remap_index vs (build_vertex_map vs) i).
Proof.
  intros Hi. unfold remap_index.
  destruct (lookup_lt_is_Some_2 vs i Hi) as [v Hv]. rewrite Hv.
  apply lookup_position_is_Some, build_vertex_map_keys.
  apply list_elem_of_lookup. eauto.
Qed.

Lemma remap_indices_lt (vs : list (Vertex C)) (entries out : list (list nat)) :
  remap_indices vs (build_vertex_map vs) entries = Some out →
  Forall (Forall (λ k, k < length (build_vertex_map vs).*1)) out.
Proof.
  unfold remap_indices. intros Hmap%mapM_Some_1.
  induction Hmap as [| entry entry' entries out Hentry _ IH]; constructor; [| done].
  apply mapM_Some_1 in Hentry. clear IH.
  induction Hentry as [| i k entry entry' Hi _ IH]; constructor; [| done].
  by eapply remap_index_lt.
Qed.

Lemma remap_indices_valid (vs : list (Vertex C)) (entries : list (list nat)) :
  Forall (Forall (λ i, i < length vs)) entries →
  is_Some (remap_indices vs (build_vertex_map vs) entries).
Proof.
  intros Hvalid. unfold remap_indices. apply mapM_is_Some_2.
  eapply Forall_impl; [exact Hvalid |]. intros entry Hentry. simpl.
  apply mapM_is_Some_2. eapply Forall_impl; [exact Hentry |].
  intros i Hi. simpl. by apply remap_index_valid.
Qed.

(** On pairwise distinct vertices the rewriting is the identity. *)
Lemma remap_indices_distinct (c : list (Vertex C)) (entries : list (list nat)) :
  NoDup c →
  Forall (Forall (λ i, i < length c)) entries →
  remap_indices c (build_vertex_map c) entries = Some entries.
Proof.
  intros Hnodup Hvalid.
  assert (Hkeys : (build_vertex_map c).*1 = c).
  { unfold build_vertex_map. by rewrite build_distinct. }
  unfold remap_indices. apply mapM_Some_2, Forall_Forall2_diag.
  eapply Forall_impl; [exact Hvalid |]. intros entry Hentry. simpl.
  apply mapM_Some_2, Forall_Forall2_diag.
  eapply Forall_impl; [exact Hentry |]. intros i Hi. simpl.
  unfold remap_index. destruct (lookup_lt_is_Some_2 c i Hi) as [v Hv].
  rewrite Hv. apply (canonical_lookup _ v i (build_vertex_map_canonical c)).
  by rewrite Hkeys.
Qed.

Lemma drop_degenerate_idem (k : nat) (entries : list (list nat)) :
  drop_degenerate k (drop_degenerate k entries) = drop_degenerate k entries.
Proof. unfold drop_degenerate. by rewrite list_filter_filter_l. Qed.

Lemma drop_degenerate_Forall (P : list nat → Prop) (k : nat)
    (entries : list (list nat)) :
  Forall P entries → Forall P (drop_degenerate k entries).
Proof.
  rewrite !Forall_forall. intros Hall entry Hin.
  apply list_elem_of_filter in Hin as [_ Hin]. by apply Hall.
Qed.

Lemma drop_parallel_all (keep : list bool) (weights : list W) :
  Forall (λ k, k = true) keep → drop_parallel keep weights = weights.
Proof.
  intros Hall. revert weights.
  induction Hall as [| k keep -> _ IH]; intros [| w weights]; cbn; try done.
  by rewrite IH.
Qed.

Lemma kept_mask_true (k : nat) (entries : list (list nat)) :
  Forall (λ b, b = true)
    ((λ entry, bool_decide (k ≤ distinct_indices entry)%nat)
       <$> drop_degenerate k entries).
Proof.
  apply Forall_fmap, Forall_forall. intros entry Hin. cbn.
  apply list_elem_of_filter in Hin as [Hk _]. by apply bool_decide_eq_true_2.
Qed.

(** *** optimize *)

Lemma optimized_total (md : MeshData C W) :
  indices_valid md → is_Some (optimized md).
Proof.
  unfold indices_valid. intros [Hf He]%Forall_app. unfold optimized.
  destruct (remap_indices_valid _ _ Hf) as [fs ->].
  destruct (remap_indices_valid _ _ He) as [es ->]. by eexists.
Qed.

Lemma optimized_fixpoint (md md1 : MeshData C W) :
  optimized md = Some md1 → optimized md1 = Some md1.
Proof.
  unfold optimized at 1.
  destruct (remap_indices _ _ (faces md)) as [fs |] eqn:Hfs; [| done].
  destruct (remap_indices _ _ (edges md)) as [es |] eqn:Hes; [| done].
  intros [= <-]. unfold optimized. simpl.
  pose proof (build_vertex_map_keys (vertices md)) as [Hnodup _].
  set (c := (build_vertex_map (vertices md)).*1) in *.
  assert (Hkeys : (build_vertex_map c).*1 = c).
  { unfold build_vertex_map. by rewrite build_distinct. }
  rewrite (remap_indices_distinct c (drop_degenerate 3 fs)); [| done |].
  - rewrite (remap_indices_distinct c (drop_degenerate 2 es)); [| done |].
    + rewrite drop_parallel_all by apply kept_mask_true.
      by rewrite Hkeys, !drop_degenerate_idem.
    + by eapply drop_degenerate_Forall, remap_indices_lt.
  - by eapply drop_degenerate_Forall, remap_indices_lt.
Qed.

(** C7.  Calling [optimize] on the data [optimize] left behind gives the
    same outcome and leaves the data as it is: vertices, faces, edges and
    crease values after two calls are those after one.  On a mesh whose
    indices all refer to vertices the call succeeds. *)
Theorem optimize_idempotent (md : MeshData C W) :
  ∃ r md1, optimize md = (r, md1)
           ∧ optimize md1 = (r, md1)
           ∧ (indices_valid md → r = Ok tt).
Proof.
  unfold optimize. destruct (optimized md) as [md1 |] eqn:Hopt.
  - exists (Ok tt), md1. split; [done |]. split; [| done].
    by rewrite (optimized_fixpoint md md1).
  - exists (Raise DXFIndexError), md. split; [done |]. split.
    + by rewrite Hopt.
    + intros [x Hx]%optimized_total. congruence.
Qed.

End MeshFacts.

(** C5 at the call of [test_vertex_format]: a vertex with two coordinates
    on a mesh without geometry. *)
Lemma add_vertex_rejects_wrong_arity_witness :
  add_vertex [0; 0]%Z empty_mesh = (Raise DXFValueError, empty_mesh)
  ∧ vertices (add_vertex [0; 0]%Z empty_mesh).2 = vertices empty_mesh
  ∧ faces (add_vertex [0; 0]%Z empty_mesh).2 = faces empty_mesh
  ∧ edges (add_vertex [0; 0]%Z empty_mesh).2 = edges empty_mesh.
Proof.
  apply (add_vertex_rejects_wrong_arity empty_mesh [0; 0]%Z). simpl. lia.
Defined.

(** A failed vertex in the middle of a face keeps the vertices added before
    it and adds no face. *)
Example add_face_fails_midway :
  add_face [ [0; 0; 0]; [1; 0]; [1; 1; 0] ]%Z empty_mesh
  = (Raise DXFValueError, mkMeshData [ [0; 0; 0]%Z ] [] [] []).
Proof. reflexivity. Qed.

(** [test_add_faces]: four corners give four vertices and the face
    [0, 1, 2, 3]. *)
Example add_face_square :
  add_face [ [0; 0; 0]; [1; 0; 0]; [1; 1; 0]; [0; 1; 0] ]%Z empty_mesh
  = (Ok [0; 1; 2; 3],
     mkMeshData [ [0; 0; 0]; [1; 0; 0]; [1; 1; 0]; [0; 1; 0] ]%Z
       [ [0; 1; 2; 3] ] [] []).
Proof. reflexivity. Qed.

(** C6.  The session of [test_optimize]: the six cube faces are added
    corner by corner, which stores 24 vertices, every corner three times;
    [optimize] then leaves the 8 distinct corners in the order of their
    first occurrence, all 6 faces, each with 4 distinct indices below 8,
    and no edge. *)
Theorem optimize_cube :
  ∃ md0 md1 : MeshData Z Z,
    add_cube_faces cube_faces empty_mesh = (Ok tt, md0)
    ∧ length (vertices md0) = 24
    ∧ length (faces md0) = 6
    ∧ NoDup cube_vertices
    ∧ Forall (λ corner, length (filter (λ v, v = corner) (vertices md0)) = 3)
        cube_vertices
    ∧ optimize md0 = (Ok tt, md1)
    ∧ vertices md1 = cube_vertices
    ∧ length (vertices md1) = 8
    ∧ faces md1 = cube_faces
    ∧ length (faces md1) = 6
    ∧ Forall (λ face, length face = 4 ∧ NoDup face ∧ Forall (λ i, i < 8) face)
        (faces md1)
    ∧ edges md1 = [].
Proof.
  eexists _, _. split; [vm_compute; reflexivity |].
  split; [reflexivity |]. split; [reflexivity |].
  split; [apply (bool_decide_unpack _); vm_compute; exact I |].
  split; [apply (bool_decide_unpack _); vm_compute; exact I |].
  split; [vm_compute; reflexivity |].
  split; [reflexivity |]. split; [reflexivity |].
  split; [reflexivity |]. split; [reflexivity |].
  split; [apply (bool_decide_unpack _); vm_compute; exact I | reflexivity].
Qed.

(** C7 on the redundant cube: the first call deduplicates, the second
    changes nothing. *)
Lemma optimize_idempotent_witness :
  let md : MeshData Z Z := (add_cube_faces cube_faces empty_mesh).2 in
  ∃ r md1, optimize md = (r, md1)
           ∧ optimize md1 = (r, md1)
           ∧ (indices_valid md → r = Ok tt).
Proof.
  intros md. apply (optimize_idempotent md).
Defined.

(** A triangle that collapses onto two positions is dropped, and so is an
    edge whose ends coincide. *)
Example optimize_drops_degenerate :
  optimize (mkMeshData [ [0; 0; 0]; [1; 0; 0]; [0; 0; 0]; [0; 1; 0] ]%Z
              [ [0; 1; 2]; [0; 1; 3] ] [ [0; 2]; [1; 3] ] ([] : list Z))
  = (Ok tt, mkMeshData [ [0; 0; 0]; [1; 0; 0]; [0; 1; 0] ]%Z
              [ [0; 1; 2] ] [ [1; 2] ] []).
Proof. vm_compute. reflexivity. Qed.

(** An index that refers to no vertex makes [optimize] raise and leaves the
    data alone. *)
Example optimize_dangling_index :
  optimize (mkMeshData [ [0; 0; 0]%Z ] [ [0; 1; 2] ] [] ([] : list Z))
  = (Raise DXFIndexError, mkMeshData [ [0; 0; 0]%Z ] [ [0; 1; 2] ] [] []).
Proof. vm_compute. reflexivity. Qed.

(** * Further properties *)

(** ** POINT: frame, chaining and defaults *)

Section PointMore.
Context {F : Type} {scalar : Scalar F} {collab : Collaborators F}.

(** [Point.transform] writes location, thickness and extrusion and no other
    attribute: layer, colour, handle, angle and the rest of the namespace
    are after the call what they were before it. *)
Theorem Point_transform_frame (self : ref) (m : Matrix44 F) (h : Heap F)
    (e : DXFEntity F) (loc : Vector F) :
  h !! self = Some e →
  dxf_get (dxf e) acdb_point "location" = Some (VVec loc) →
  ∃ e', Point_transform self m h = (Ok self, <[self := e']> h)
        ∧ ∀ name, name ≠ "location" → name ≠ "thickness" →
                  name ≠ "extrusion" → dxf e' !! name = dxf e !! name.
Proof.
  intros Hself Hloc.
  destruct (Point_transform_run self m h e loc Hself Hloc) as (e' & Hrun & _ & Hframe).
  by exists e'.
Qed.

(** The calls chain: [point.transform(m).translate(dx, dy, dz)] runs both
    on the same object, the translation sees the transformed location, and
    the angle is still the original one. *)
Theorem Point_transform_then_translate (self : ref) (m : Matrix44 F)
    (dx dy dz : F) (h : Heap F) (e : DXFEntity F) (loc : Vector F) :
  h !! self = Some e →
  dxf_get (dxf e) acdb_point "location" = Some (VVec loc) →
  ∃ e', (do p <- Point_transform self m; Point_translate p dx dy dz) h
        = (Ok self, <[self := e']> h)
        ∧ dxf e' !! "location"
          = Some (VVec (Vector_add (mkVector dx dy dz) (Matrix44_transform m loc)))
        ∧ dxf e' !! "angle" = dxf e !! "angle".
Proof.
  intros Hself Hloc.
  destruct (Point_transform_run self m h e loc Hself Hloc) as (e1 & Hrun & Hl & Hframe).
  eexists. split; [| split].
  - unfold exec_bind at 1. rewrite Hrun.
    rewrite (Point_translate_run self dx dy dz _ e1 (Matrix44_transform m loc)).
    + by rewrite insert_insert_eq.
    + apply lookup_insert_eq.
    + unfold dxf_get. by rewrite Hl.
  - simpl. apply lookup_insert_eq.
  - simpl. rewrite lookup_insert_ne by done. by apply Hframe.
Qed.

(** A POINT whose location was never stored counts as lying at the
    default, the origin: [translate] stores the offset added to the origin
    and [transform] stores the image of the origin. *)
Theorem Point_unset_location_is_origin (self : ref) (m : Matrix44 F)
    (dx dy dz : F) (h : Heap F) (e : DXFEntity F) :
  h !! self = Some e →
  dxf e !! "location" = None →
  (∃ e', Point_translate self dx dy dz h = (Ok self, <[self := e']> h)
         ∧ dxf e' !! "location"
           = Some (VVec (Vector_add (mkVector dx dy dz)
                           (mkVector fzero fzero fzero))))
  ∧ (∃ e', Point_transform self m h = (Ok self, <[self := e']> h)
           ∧ dxf e' !! "location"
             = Some (VVec (Matrix44_transform m (mkVector fzero fzero fzero)))).
Proof.
  intros Hself Hnone.
  assert (Hloc : dxf_get (dxf e) acdb_point "location"
                 = Some (VVec (mkVector fzero fzero fzero))).
  { unfold dxf_get. by rewrite Hnone. }
  split.
  - eexists. split.
    { by apply (Point_translate_run self dx dy dz h e (mkVector fzero fzero fzero)). }
    simpl. apply lookup_insert_eq.
  - destruct (Point_transform_run self m h e _ Hself Hloc) as (e' & Hrun & Hl & _).
    by exists e'.
Qed.

End PointMore.

Lemma Point_transform_frame_witness :
  let pt : DXFEntity Z :=
    mkEntity (<["location" := VVec (mkVector 1 2 3)]> (<["layer" := VStr "0"]> ∅))%Z in
  let m : Matrix44 Z := (mkMatrix44 2 0 0 0  0 2 0 0  0 0 2 0  10 20 30 1)%Z in
  ∃ e', Point_transform (collab := Z_collaborators) 7 m {[7 := pt]}
        = (Ok 7, <[7 := e']> {[7 := pt]})
        ∧ ∀ name, name ≠ "location" → name ≠ "thickness" →
                  name ≠ "extrusion" → dxf e' !! name = dxf pt !! name.
Proof.
  intros pt m.
  apply (Point_transform_frame (collab := Z_collaborators) 7 m {[7 := pt]} pt
           (mkVector 1 2 3)%Z); reflexivity.
Defined.

Lemma Point_transform_then_translate_witness :
  let pt : DXFEntity Z :=
    mkEntity (<["location" := VVec (mkVector 1 2 3)]> (<["angle" := VInt 45]> ∅))%Z in
  let m : Matrix44 Z := (mkMatrix44 2 0 0 0  0 2 0 0  0 0 2 0  10 20 30 1)%Z in
  ∃ e', (do p <- Point_transform (collab := Z_collaborators) 7 m;
         Point_translate p 1 1 1)%Z {[7 := pt]}
        = (Ok 7, <[7 := e']> {[7 := pt]})
        ∧ dxf e' !! "location"
          = Some (VVec (Vector_add (mkVector 1 1 1)
                          (Matrix44_transform m (mkVector 1 2 3))))%Z
        ∧ dxf e' !! "angle" = dxf pt !! "angle".
Proof.
  intros pt m.
  apply (Point_transform_then_translate (collab := Z_collaborators) 7 m
           1%Z 1%Z 1%Z {[7 := pt]} pt (mkVector 1 2 3)%Z); reflexivity.
Defined.

Lemma Point_unset_location_is_origin_witness :
  let pt : DXFEntity Z := mkEntity (<["angle" := VInt 45]> ∅)%Z in
  let m : Matrix44 Z := (mkMatrix44 2 0 0 0  0 2 0 0  0 0 2 0  10 20 30 1)%Z in
  (∃ e', Point_translate 7 1%Z 2%Z 3%Z {[7 := pt]} = (Ok 7, <[7 := e']> {[7 := pt]})
         ∧ dxf e' !! "location"
           = Some (VVec (Vector_add (mkVector 1 2 3) (mkVector fzero fzero fzero)))%Z)
  ∧ (∃ e', Point_transform (collab := Z_collaborators) 7 m {[7 := pt]}
           = (Ok 7, <[7 := e']> {[7 := pt]})
           ∧ dxf e' !! "location"
             = Some (VVec (Matrix44_transform m (mkVector fzero fzero fzero)))).
Proof.
  intros pt m.
  apply (Point_unset_location_is_origin (collab := Z_collaborators) 7 m
           1%Z 2%Z 3%Z {[7 := pt]} pt); reflexivity.
Defined.

(** ** POINT: loading and export compose *)

Section RoundTrip.
Context {F : Type} {scalar : Scalar F} {collab : Collaborators F}.

Lemma Point_export_entity_run (self : DXFEntity F) (tw : TagWriter F) :
  Point_export_entity self tw
  = (Ok tt, mkTagWriter (dxfversion tw)
              (written tw ++ super_export_tags self (dxfversion tw)
               ++ (if String.ltb DXF12 (dxfversion tw)
                   then [(100%Z, VStr "AcDbPoint")] else [])
               ++ attrib_tags (dxf self) acdb_point "location"
               ++ attrib_tags (dxf self) acdb_point "thickness"
               ++ attrib_tags (dxf self) acdb_point "extrusion"
               ++ attrib_tags (dxf self) acdb_point "angle")).
Proof.
  unfold Point_export_entity, super_export_entity, exec_bind, get_state,
    modify_state, write_tag2. cbn [fst snd dxfversion written].
  destruct (String.ltb DXF12 (dxfversion tw));
    cbn [export_dxf_attribs]; unfold exec_bind, modify_state, exec_ret;
    cbn [dxfversion written]; do 2 f_equal; rewrite <- ?app_assoc;
    by rewrite ?app_nil_r.
Qed.

(** What each attribute of the POINT schema contributes on export. *)
Lemma attrib_tags_point (ns : DXFNamespace F) :
  attrib_tags ns acdb_point "location"
  = [(10%Z, default (VVec (mkVector fzero fzero fzero)) (ns !! "location"))]
  ∧ attrib_tags ns acdb_point "thickness" = optional_tag 39 (ns !! "thickness")
  ∧ attrib_tags ns acdb_point "extrusion" = optional_tag 210 (ns !! "extrusion")
  ∧ attrib_tags ns acdb_point "angle" = optional_tag 50 (ns !! "angle").
Proof.
  unfold attrib_tags. cbn.
  by destruct (ns !! "location"), (ns !! "thickness"), (ns !! "extrusion"),
    (ns !! "angle").
Qed.

(** Exporting what was loaded gives the tags back.  When the AcDbPoint
    sub-record holds a location and, in schema order, any of thickness,
    extrusion and angle, and the parent class stored none of these three,
    then loading reports nothing and the export of the loaded namespace
    writes, after the parent's tags and the marker the version asks for,
    exactly the tags of the sub-record. *)
Theorem Point_load_export_round_trip (p : SubclassProcessor F)
    (log log0 : list (Notice F)) (dxf0 : DXFNamespace F) (tw : TagWriter F)
    (l : Vector F) (t a : option (DXFValue F)) (x : option (Vector F)) :
  let tags : list (DXFTag F) :=
    (10%Z, VVec l) :: optional_tag 39 t ++ optional_tag 210 (VVec <$> x)
    ++ optional_tag 50 a in
  find_subclass p "AcDbPoint" = Some tags →
  super_load_dxf_attribs (Some p) log = (Ok dxf0, log0) →
  dxf0 !! "thickness" = None →
  dxf0 !! "extrusion" = None →
  dxf0 !! "angle" = None →
  ∃ dxf1,
    Point_load_dxf_attribs (Some p) log = (Ok dxf1, log0)
    ∧ Point_export_entity (mkEntity dxf1) tw
      = (Ok tt, mkTagWriter (dxfversion tw)
                  (written tw ++ super_export_tags (mkEntity dxf1) (dxfversion tw)
                   ++ (if String.ltb DXF12 (dxfversion tw)
                       then [(100%Z, VStr "AcDbPoint")] else [])
                   ++ tags)).
Proof.
  intros tags Hfind Hsuper Ht Hx Ha.
  unfold Point_load_dxf_attribs, exec_bind. rewrite Hsuper.
  unfold load_dxfattribs_into_namespace.
  change (subclass_name acdb_point) with "AcDbPoint". rewrite Hfind.
  subst tags. destruct t as [t |], x as [x |], a as [a |].
  all: cbn [acdb_point subclass_attribs load_tags_into_namespace optional_tag
            fmap option_fmap option_map app take_first_code tag_code tag_value
            fst snd attr_code attr_xtype shape_ok Z.eqb Pos.eqb length
            Nat.eqb negb andb].
  all: eexists; (split; [reflexivity |]).
  all: match goal with
       | |- context [Point_export_entity {| dxf := ?ns |}] =>
           rewrite Point_export_entity_run; cbn [dxf];
           destruct (attrib_tags_point ns) as (-> & -> & -> & ->)
       end.
  all: repeat (rewrite lookup_insert_eq || rewrite lookup_insert_ne by done).
  all: by rewrite ?Ht, ?Hx, ?Ha.
Qed.

(** On export an optional attribute that is not stored is left out, while
    the location is always written, with the origin as its value when it
    was never stored: after the parent's tags and the marker, the POINT
    writes the location tag followed by exactly the stored ones among
    thickness, extrusion and angle. *)
Theorem Point_export_suppresses_unset (self : DXFEntity F) (tw : TagWriter F) :
  Point_export_entity self tw
  = (Ok tt, mkTagWriter (dxfversion tw)
              (written tw ++ super_export_tags self (dxfversion tw)
               ++ (if String.ltb DXF12 (dxfversion tw)
                   then [(100%Z, VStr "AcDbPoint")] else [])
               ++ [(10%Z, default (VVec (mkVector fzero fzero fzero))
                            (dxf self !! "location"))]
               ++ optional_tag 39 (dxf self !! "thickness")
               ++ optional_tag 210 (dxf self !! "extrusion")
               ++ optional_tag 50 (dxf self !! "angle"))).
Proof.
  rewrite Point_export_entity_run.
  by destruct (attrib_tags_point (dxf self)) as (-> & -> & -> & ->).
Qed.

End RoundTrip.

Lemma Point_load_export_round_trip_witness :
  let tags : list (DXFTag Z) :=
    (10%Z, VVec (mkVector 1 2 3)%Z) :: optional_tag 39 None
    ++ optional_tag 210 (VVec <$> Some (mkVector 0 0 1)%Z)
    ++ optional_tag 50 (Some (VInt 45)) in
  let p : SubclassProcessor Z :=
    mkProcessor false [ [(0%Z, VStr "POINT")]; (100%Z, VStr "AcDbPoint") :: tags ] in
  let tw : TagWriter Z := mkTagWriter "AC1015" [(0%Z, VStr "POINT")] in
  ∃ dxf1,
    Point_load_dxf_attribs (collab := Z_collaborators) (Some p) [] = (Ok dxf1, [])
    ∧ Point_export_entity (collab := Z_collaborators) (mkEntity dxf1) tw
      = (Ok tt, mkTagWriter (dxfversion tw)
                  (written tw
                   ++ super_export_tags (Collaborators := Z_collaborators)
                        (mkEntity dxf1) (dxfversion tw)
                   ++ (if String.ltb (DXF12 (Collaborators := Z_collaborators))
                            (dxfversion tw)
                       then [(100%Z, VStr "AcDbPoint")] else [])
                   ++ tags)).
Proof.
  intros tags p tw.
  apply (Point_load_export_round_trip (collab := Z_collaborators) p [] [] ∅ tw
           (mkVector 1 2 3)%Z None (Some (VInt 45)) (Some (mkVector 0 0 1)%Z));
    reflexivity.
Defined.

(** ** The modern factory: repeated updates and [copy_layout] *)

Lemma dict_update_twice {V : Type} (d other : gmap string V) :
  dict_update (dict_update d other) other = dict_update d other.
Proof.
  rewrite !dict_update_union. apply map_eq. intros k.
  rewrite !lookup_union. by destruct (other !! k), (d !! k).
Qed.

(** Updating the wrapper table of a modern factory once more with the
    modern entries changes nothing: should the table the legacy initialiser
    hands over be shared and already carry the entries of an earlier
    factory, the new factory ends up with that very table. *)
Theorem ModernDXFFactory_update_idempotent {legacy : LegacyLayer} (d : Drawing) :
  dict_update (ENTITY_WRAPPERS (ModernDXFFactory_init d)) UPDATE_ENTITY_WRAPPERS
  = ENTITY_WRAPPERS (ModernDXFFactory_init d).
Proof.
  unfold ModernDXFFactory_init. cbn [ENTITY_WRAPPERS]. apply dict_update_twice.
Qed.

Section CopyLayoutFacts.
Context {F : Type}.

Lemma entity_getattr_run (sc : DefSubclass F) (self : ref) (name : string)
    (h : Heap F) (e : DXFEntity F) (v : DXFValue F) :
  h !! self = Some e →
  dxf_get (dxf e) sc name = Some v →
  entity_getattr sc self name h = (Ok v, h).
Proof. intros Hself Hget. unfold entity_getattr. by rewrite Hself, Hget. Qed.

Lemma setattr_stored (self : ref) (name : string) (v : DXFValue F) (h : Heap F)
    (e : DXFEntity F) :
  h !! self = Some e →
  setattr self name v h = (Ok tt, <[self := mkEntity (<[name := v]> (dxf e))]> h).
Proof. intros Hself. unfold setattr. by rewrite Hself. Qed.

Lemma dxf_get_insert_ne (sc : DefSubclass F) (ns : DXFNamespace F)
    (name other : string) (v : DXFValue F) :
  name ≠ other →
  dxf_get (<[name := v]> ns) sc other = dxf_get ns sc other.
Proof. intros Hne. unfold dxf_get. by rewrite lookup_insert_ne. Qed.

(** [copy_layout] on two stored entities, the source having a readable
    paperspace flag and owner: the target afterwards stores both values,
    keeps every other attribute, and no other object changes; in
    particular the source is untouched unless it is the target itself. *)
Theorem copy_layout_places_target (sc : DefSubclass F) (source target : ref)
    (h : Heap F) (es et : DXFEntity F) (p o : DXFValue F) :
  h !! source = Some es →
  h !! target = Some et →
  dxf_get (dxf es) sc "paperspace" = Some p →
  dxf_get (dxf es) sc "owner" = Some o →
  ∃ et', copy_layout sc source target h = (Ok tt, <[target := et']> h)
         ∧ dxf et' !! "paperspace" = Some p
         ∧ dxf et' !! "owner" = Some o
         ∧ (∀ name, name ≠ "paperspace" → name ≠ "owner" →
                    dxf et' !! name = dxf et !! name)
         ∧ (∀ other, other ≠ target → <[target := et']> h !! other = h !! other).
Proof.
  intros Hs Ht Hp Ho.
  set (et1 := mkEntity (<["paperspace" := p]> (dxf et))).
  exists (mkEntity (<["owner" := o]> (dxf et1))). split; [| split; [| split; [| split]]].
  - unfold copy_layout, exec_bind.
    rewrite (entity_getattr_run sc source "paperspace" h es p Hs Hp).
    rewrite (setattr_stored target "paperspace" p h et Ht). fold et1.
    assert (Hread : entity_getattr sc source "owner" (<[target := et1]> h)
                    = (Ok o, <[target := et1]> h)).
    { destruct (decide (source = target)) as [-> | Hne].
      - apply (entity_getattr_run sc target "owner" _ et1 o).
        + apply lookup_insert_eq.
        + subst et1. cbn [dxf]. rewrite dxf_get_insert_ne by done. congruence.
      - apply (entity_getattr_run sc source "owner" _ es o); [| done].
        by rewrite lookup_insert_ne. }
    rewrite Hread.
    rewrite (setattr_stored target "owner" o _ et1) by apply lookup_insert_eq.
    by rewrite insert_insert_eq.
  - subst et1. cbn [dxf]. rewrite lookup_insert_ne by done. apply lookup_insert_eq.
  - cbn [dxf]. apply lookup_insert_eq.
  - intros name Hnp Hno. subst et1. cbn [dxf]. by rewrite !lookup_insert_ne.
  - intros other Hne. by rewrite lookup_insert_ne.
Qed.


End CopyLayoutFacts.

(** Over the POINT schema, which knows neither attribute, an entity must
    store them to be a source. *)
Lemma copy_layout_places_target_witness :
  let src : DXFEntity Z :=
    mkEntity (<["paperspace" := VInt 1]> (<["owner" := VStr "1F"]> ∅)) in
  let tgt : DXFEntity Z := mkEntity (<["layer" := VStr "0"]> ∅) in
  let h : Heap Z := {[1 := src; 2 := tgt]} in
  ∃ et', copy_layout acdb_point 1 2 h = (Ok tt, <[2 := et']> h)
         ∧ dxf et' !! "paperspace" = Some (VInt 1)
         ∧ dxf et' !! "owner" = Some (VStr "1F")
         ∧ (∀ name, name ≠ "paperspace" → name ≠ "owner" →
                    dxf et' !! name = dxf tgt !! name)
         ∧ (∀ other, other ≠ 2 → <[2 := et']> h !! other = h !! other).
Proof.
  intros src tgt h.
  apply (copy_layout_places_target acdb_point 1 2 h src tgt (VInt 1) (VStr "1F"));
    reflexivity.
Defined.


(** ** Mesh editing: faces, edges and what [optimize] preserves *)

Section MeshMore.
Context {C : Type} `{EqDecision C} {W : Type}.

Lemma add_vertices_run (vs : list (Vertex C)) (md : MeshData C W) :
  Forall (λ v, length v = 3) vs →
  add_vertices vs md
  = (Ok (seq (length (vertices md)) (length vs)),
     mkMeshData (vertices md ++ vs) (faces md) (edges md) (edge_crease_values md)).
Proof.
  revert md. induction vs as [| v vs IH]; intros md Hall.
  - cbn. rewrite app_nil_r. by destruct md.
  - apply Forall_cons in Hall as [Hv Hvs].
    cbn [add_vertices]. unfold exec_bind at 1. unfold add_vertex at 1.
    rewrite Hv. cbn [Nat.eqb negb].
    unfold exec_bind at 1. rewrite (IH _ Hvs). cbn [vertices faces edges edge_crease_values exec_ret].
    rewrite length_app, <- app_assoc. cbn [length app].
    by replace (length (vertices md) + 1) with (S (length (vertices md))) by lia.
Qed.

Lemma new_indices_refer (old vs : list (Vertex C)) :
  Forall2 (λ i v, (old ++ vs) !! i = Some v) (seq (length old) (length vs)) vs.
Proof.
  apply Forall2_same_length_lookup_2; [apply length_seq |].
  intros k i v [-> Hk]%lookup_seq Hv.
  rewrite lookup_app_r by lia.
  by replace (length old + k - length old) with k by lia.
Qed.

Lemma indices_valid_grow (vs more : list (Vertex C)) (entries : list (list nat)) :
  Forall (Forall (λ i, i < length vs)) entries →
  Forall (Forall (λ i, i < length (vs ++ more))) entries.
Proof.
  intros Hall. eapply Forall_impl; [exact Hall |]. intros entry Hentry.
  eapply Forall_impl; [exact Hentry |]. intros i Hi. cbn beta in *.
  rewrite length_app. lia.
Qed.

Lemma new_indices_valid (old vs : list (Vertex C)) :
  Forall (λ i, i < length (old ++ vs)) (seq (length old) (length vs)).
Proof. apply Forall_seq. intros j Hj. rewrite length_app. lia. Qed.

(** [add_face] with at least three corners of three coordinates each:
    the corners are appended to the vertices in the order given, the new
    face is the list of their consecutive new indices, each index refers to
    its corner, nothing else changes, and a mesh whose indices all referred
    to vertices is still such a mesh. *)
Theorem add_face_appends (vs : list (Vertex C)) (md : MeshData C W) :
  Forall (λ v, length v = 3) vs →
  (3 ≤ length vs)%nat →
  let indices := seq (length (vertices md)) (length vs) in
  add_face vs md
  = (Ok indices,
     mkMeshData (vertices md ++ vs) (faces md ++ [indices]) (edges md)
       (edge_crease_values md))
  ∧ Forall2 (λ i v, (vertices md ++ vs) !! i = Some v) indices vs
  ∧ (indices_valid md → indices_valid (add_face vs md).2).
Proof.
  intros Hall _ indices.
  assert (Hface : add_face vs md
    = (Ok indices,
       mkMeshData (vertices md ++ vs) (faces md ++ [indices]) (edges md)
         (edge_crease_values md))).
  { unfold add_face, exec_bind. by rewrite (add_vertices_run vs md Hall). }
  split; [done |]. split; [apply new_indices_refer |].
  intros Hvalid. rewrite Hface. unfold indices_valid in *.
  cbn [snd vertices faces edges].
  apply Forall_app in Hvalid as [Hf He].
  apply (indices_valid_grow _ vs) in Hf, He.
  pose proof (new_indices_valid (vertices md) vs) as Hnew.
  rewrite !Forall_app. repeat split; try done. by apply Forall_singleton.
Qed.

(** *** optimize keeps the geometry *)

Lemma build_sublist (vs : list (Vertex C)) (m : VertexMap C) :
  ∃ l, (foldl note_position m vs).*1 = m.*1 ++ l ∧ sublist l vs.
Proof.
  revert m. induction vs as [| v vs IH]; intros m; cbn [foldl].
  - exists []. by rewrite app_nil_r.
  - destruct (IH (note_position m v)) as (l & Hkeys & Hsub).
    rewrite Hkeys, note_position_keys. case_decide.
    + exists l. split; [done | by apply sublist_cons].
    + exists (v :: l). rewrite <- app_assoc. split; [done | by apply sublist_skip].
Qed.

Lemma remap_indices_images (vs : list (Vertex C))
    (entries out : list (list nat)) :
  remap_indices vs (build_vertex_map vs) entries = Some out →
  Forall2 (Forall2 (λ i i', ∃ v, vs !! i = Some v
                               ∧ (build_vertex_map vs).*1 !! i' = Some v))
    entries out.
Proof.
  unfold remap_indices. intros Hmap%mapM_Some_1.
  eapply Forall2_impl; [exact Hmap |]. intros entry entry' Hentry.
  apply mapM_Some_1 in Hentry.
  eapply Forall2_impl; [exact Hentry |]. intros i i' Hi. cbn beta in Hi.
  unfold remap_index in Hi. destruct (vs !! i) as [v |]; [| done].
  exists v. split; [done |].
  by apply (canonical_lookup _ v i' (build_vertex_map_canonical vs)).
Qed.

Lemma drop_degenerate_keeps (k : nat) (entries : list (list nat)) :
  Forall (λ entry, (k ≤ distinct_indices entry)%nat) entries →
  drop_degenerate k entries = entries.
Proof.
  unfold drop_degenerate. induction 1 as [| entry entries Hk _ IH]; [done |].
  rewrite filter_cons_True by done. by rewrite IH.
Qed.

(** Dropping the weights of the dropped edges keeps edges and weights
    paired as they were. *)
Lemma drop_parallel_zip (k : nat) (es : list (list nat)) (ws : list W) :
  length ws = length es →
  zip (filter (λ edge, (k ≤ length (remove_dups edge))%nat) es)
    (drop_parallel
       ((λ edge, bool_decide (k ≤ distinct_indices edge)%nat) <$> es) ws)
  = filter (λ ew, (k ≤ length (remove_dups ew.1))%nat) (zip es ws)
  ∧ length (drop_parallel
              ((λ edge, bool_decide (k ≤ distinct_indices edge)%nat) <$> es) ws)
    = length (filter (λ edge, (k ≤ length (remove_dups edge))%nat) es).
Proof.
  unfold distinct_indices. revert ws.
  induction es as [| edge es IH]; intros [| w ws] Hlen; try done.
  injection Hlen as Hlen. destruct (IH ws Hlen) as [Hzip Hl].
  cbn [fmap list_fmap zip zip_with drop_parallel]. rewrite !filter_cons.
  cbn [fst].
  destruct (decide (k ≤ length (remove_dups edge))%nat) as [Hk | Hk].
  - rewrite bool_decide_eq_true_2 by done. cbn [zip zip_with length].
    split; [by f_equal | by f_equal].
  - by rewrite bool_decide_eq_false_2 by done.
Qed.

(** A successful [optimize] keeps the geometry and loses nothing but what
    degenerates.  The new vertices are the old positions without
    repetition, in the order they had, and every new index refers to a
    vertex.  Every old face and edge has an image whose corners lie, corner
    by corner, at the same positions; the new faces are exactly the images
    with at least three distinct indices and the new edges exactly those
    with two, in the old order; and when the crease weights ran parallel to
    the edges they still do, every surviving edge with the weight it had. *)
Theorem optimize_sound (md md1 : MeshData C W) :
  optimize md = (Ok tt, md1) →
  let same_position (i i' : nat) :=
    ∃ v, vertices md !! i = Some v ∧ vertices md1 !! i' = Some v in
  NoDup (vertices md1)
  ∧ (∀ v, v ∈ vertices md1 ↔ v ∈ vertices md)
  ∧ sublist (vertices md1) (vertices md)
  ∧ indices_valid md1
  ∧ ∃ fs es,
      Forall2 (Forall2 same_position) (faces md) fs
      ∧ Forall2 (Forall2 same_position) (edges md) es
      ∧ faces md1 = filter (λ face, (3 ≤ length (remove_dups face))%nat) fs
      ∧ edges md1 = filter (λ edge, (2 ≤ length (remove_dups edge))%nat) es
      ∧ (length (edge_crease_values md) = length (edges md) →
         zip (edges md1) (edge_crease_values md1)
         = filter (λ ew, (2 ≤ length (remove_dups ew.1))%nat)
             (zip es (edge_crease_values md))
         ∧ length (edge_crease_values md1) = length (edges md1)).
Proof.
  unfold optimize. destruct (optimized md) as [md' |] eqn:Hopt; [| done].
  intros [= <-]. unfold optimized in Hopt.
  destruct (remap_indices _ _ (faces md)) as [fs |] eqn:Hfs; [| done].
  destruct (remap_indices _ _ (edges md)) as [es |] eqn:Hes; [| done].
  injection Hopt as <-. cbn [vertices faces edges edge_crease_values].
  destruct (build_vertex_map_keys (vertices md)) as [Hnodup Hmem].
  split; [done |]. split; [done |]. split.
  { destruct (build_sublist (vertices md) []) as (l & Hkeys & Hsub).
    unfold build_vertex_map. by rewrite Hkeys. }
  split.
  { unfold indices_valid. cbn [vertices faces edges]. apply Forall_app. split.
    - by eapply drop_degenerate_Forall, remap_indices_lt.
    - by eapply drop_degenerate_Forall, remap_indices_lt. }
  exists fs, es.
  split; [by apply remap_indices_images |].
  split; [by apply remap_indices_images |].
  split; [done |]. split; [done |].
  intros Hlen. apply drop_parallel_zip.
  unfold remap_indices in Hes. by rewrite <- (length_mapM _ _ _ Hes).
Qed.

(** [optimize] leaves a clean mesh alone: without repeated positions, with
    all indices referring to vertices, every face on at least three and
    every edge on two distinct indices, the call succeeds and the data are
    what they were. *)
Theorem optimize_clean_mesh_unchanged (md : MeshData C W) :
  NoDup (vertices md) →
  indices_valid md →
  Forall (λ face, (3 ≤ distinct_indices face)%nat) (faces md) →
  Forall (λ edge, (2 ≤ distinct_indices edge)%nat) (edges md) →
  optimize md = (Ok tt, md).
Proof.
  intros Hnodup [Hf He]%Forall_app Hfaces Hedges.
  unfold optimize, optimized.
  rewrite (remap_indices_distinct _ (faces md)) by done.
  rewrite (remap_indices_distinct _ (edges md)) by done.
  rewrite !drop_degenerate_keeps by done.
  rewrite drop_parallel_all.
  - unfold build_vertex_map. rewrite build_distinct by done. by destruct md.
  - apply Forall_fmap. eapply Forall_impl; [exact Hedges |].
    intros edge Hedge. by apply bool_decide_eq_true_2.
Qed.

End MeshMore.

Lemma add_face_appends_witness :
  let vs : list (list Z) := [ [0; 0; 0]; [1; 0; 0]; [1; 1; 0] ]%Z in
  let md : MeshData Z Z := mkMeshData [ [5; 5; 5]%Z ] [] [] [] in
  let indices := seq (length (vertices md)) (length vs) in
  add_face vs md
  = (Ok indices,
     mkMeshData (vertices md ++ vs) (faces md ++ [indices]) (edges md)
       (edge_crease_values md))
  ∧ Forall2 (λ i v, (vertices md ++ vs) !! i = Some v) indices vs
  ∧ (indices_valid md → indices_valid (add_face vs md).2).
Proof.
  intros vs md.
  apply (add_face_appends vs md); [repeat constructor | simpl; lia].
Defined.

(** [test_add_edges], and what a call with three vertices does. *)
Example add_edge_pair :
  add_edge [ [0; 0; 0]; [1; 0; 0] ]%Z empty_mesh
  = (Ok [0; 1], mkMeshData [ [0; 0; 0]; [1; 0; 0] ]%Z [] [ [0; 1] ] []).
Proof. reflexivity. Qed.

Example add_edge_three_vertices :
  add_edge [ [0; 0; 0]; [1; 0; 0]; [1; 1; 0] ]%Z empty_mesh
  = (Raise DXFValueError, empty_mesh).
Proof. reflexivity. Qed.

(** Two faces and two weighted edges over four vertices, two of which
    coincide: one face and one edge degenerate; the edge that stays keeps
    its weight 7. *)
Lemma optimize_sound_witness :
  let md : MeshData Z Z :=
    mkMeshData [ [0; 0; 0]; [1; 0; 0]; [0; 0; 0]; [0; 1; 0] ]%Z
      [ [0; 1; 2]; [0; 1; 3] ] [ [0; 2]; [1; 3] ] [5; 7]%Z in
  let md1 : MeshData Z Z :=
    mkMeshData [ [0; 0; 0]; [1; 0; 0]; [0; 1; 0] ]%Z [ [0; 1; 2] ] [ [1; 2] ]
      [7]%Z in
  let same_position (i i' : nat) :=
    ∃ v, vertices md !! i = Some v ∧ vertices md1 !! i' = Some v in
  NoDup (vertices md1)
  ∧ (∀ v, v ∈ vertices md1 ↔ v ∈ vertices md)
  ∧ sublist (vertices md1) (vertices md)
  ∧ indices_valid md1
  ∧ ∃ fs es,
      Forall2 (Forall2 same_position) (faces md) fs
      ∧ Forall2 (Forall2 same_position) (edges md) es
      ∧ faces md1 = filter (λ face, (3 ≤ length (remove_dups face))%nat) fs
      ∧ edges md1 = filter (λ edge, (2 ≤ length (remove_dups edge))%nat) es
      ∧ (length (edge_crease_values md) = length (edges md) →
         zip (edges md1) (edge_crease_values md1)
         = filter (λ ew, (2 ≤ length (remove_dups ew.1))%nat)
             (zip es (edge_crease_values md))
         ∧ length (edge_crease_values md1) = length (edges md1)).
Proof.
  intros md md1. apply (optimize_sound md md1). vm_compute. reflexivity.
Defined.

Lemma optimize_clean_mesh_unchanged_witness :
  let md : MeshData Z Z :=
    mkMeshData [ [0; 0; 0]; [1; 0; 0]; [0; 1; 0] ]%Z [ [0; 1; 2] ] [ [0; 1] ] [] in
  optimize md = (Ok tt, md).
Proof.
  intros md. apply (optimize_clean_mesh_unchanged md).
  - apply (bool_decide_unpack _). vm_compute. exact I.
  - apply (bool_decide_unpack _). vm_compute. exact I.
  - apply (bool_decide_unpack _). vm_compute. exact I.
  - apply (bool_decide_unpack _). vm_compute. exact I.
Defined.
